(** * Risk classifier of the results page (src/pages/Results.tsx)

    A shallow embedding of the pure string-classification functions of
    [Results.tsx]: [hasWord], [normalizeRisk], [riskFromCombined],
    [summarizeSingle], [riskExplanation] and the [overallRisk] resolution
    performed at the top of [ResultsPage]; of the report that
    [ResultsPage] renders from them; and of the [choose] handler of
    [SampleImages.tsx], with the actions it performs recorded as a trace.

    Conventions of the embedding.
    - A JavaScript string is a sequence of UTF-16 code units.  It is
      embedded as a [string] of the Standard Library, whose characters
      are the code units 0x00..0xFF (Basic Latin and Latin-1 Supplement).
      [toLowerCase], [trim] and the case-insensitive canonicalisation of
      the regular-expression engine are given with their ECMAScript
      meaning on that range.
    - [undefined] and [null] are explicit constructors ([JsValue]); an
      optional parameter of type [string] is an [option string].
    - The string-literal union [RiskLevel] is an enumeration together
      with [RiskLevel_str], the string each variant is at run time.
    - Code that may throw returns a [result]. *)

From Stdlib Require Import Strings.String Strings.Ascii Lists.List Bool.Bool.
From Stdlib Require Import NArith.NArith Arith.PeanoNat micromega.Lia.
Import ListNotations.

Local Open Scope string_scope.
Local Open Scope bool_scope.

(** ** Exceptions *)

Inductive JsError : Type :=
| SyntaxError.

Inductive result (A : Type) : Type :=
| Ok (a : A)
| Throw (e : JsError).

Arguments Ok {A} a.
Arguments Throw {A} e.

Definition bind {A B : Type} (r : result A) (k : A -> result B) : result B :=
  match r with
  | Ok a => k a
  | Throw e => Throw e
  end.

Notation "'let*' x ':=' r 'in' k" := (bind r (fun x => k))
  (at level 10, x name, r at level 100, k at level 200).

(** ** Strings as the code uses them *)

Module JsString.

(** Numeric value of a code unit. *)
Definition code (c : ascii) : N := N_of_ascii c.

Definition between (lo hi n : N) : bool := (lo <=? n)%N && (n <=? hi)%N.

(** Upper-case letters of the range that have a one-code-unit lower
    case: A-Z, and U+00C0..U+00DE without the multiplication sign. *)
Definition hasLower (n : N) : bool :=
  between 65 90 n || (between 192 222 n && negb (n =? 215)%N).

Definition toLowerChar (c : ascii) : ascii :=
  if hasLower (code c) then ascii_of_N (code c + 32) else c.

(** [String.prototype.toLowerCase]. *)
Fixpoint toLowerCase (s : string) : string :=
  match s with
  | EmptyString => EmptyString
  | String c s' => String (toLowerChar c) (toLowerCase s')
  end.

(** WhiteSpace and LineTerminator code units of the range: TAB, LF, VT,
    FF, CR, SP and NBSP. *)
Definition isWhiteSpace (c : ascii) : bool :=
  let n := code c in
  between 9 13 n || (n =? 32)%N || (n =? 160)%N.

Fixpoint trimStart (s : string) : string :=
  match s with
  | EmptyString => EmptyString
  | String c s' => if isWhiteSpace c then trimStart s' else s
  end.

Fixpoint trimEnd (s : string) : string :=
  match s with
  | EmptyString => EmptyString
  | String c s' =>
      match trimEnd s' with
      | EmptyString => if isWhiteSpace c then EmptyString else String c EmptyString
      | t => String c t
      end
  end.

(** [String.prototype.trim]. *)
Definition trim (s : string) : string := trimEnd (trimStart s).

(** [s.startsWith(w)]. *)
Fixpoint startsWith (s w : string) {struct w} : bool :=
  match w with
  | EmptyString => true
  | String b w' =>
      match s with
      | EmptyString => false
      | String a s' => Ascii.eqb a b && startsWith s' w'
      end
  end.

(** [s.includes(w)]: [w] occurs in [s] as a contiguous run. *)
Fixpoint includes (s w : string) : bool :=
  startsWith s w ||
  match s with
  | EmptyString => false
  | String _ s' => includes s' w
  end.

(** Truthiness of a string value: only the empty string is falsy. *)
Definition truthy (s : string) : bool :=
  match s with
  | EmptyString => false
  | String _ _ => true
  end.

End JsString.

Import JsString.

(** A value of type [string | null | undefined]. *)
Inductive JsValue : Type :=
| JsUndefined
| JsNull
| JsStr (s : string).

(** [v || ''] *)
Definition orEmpty (v : JsValue) : string :=
  match v with
  | JsStr s => if truthy s then s else ""
  | JsUndefined | JsNull => ""
  end.

(** [Array.prototype.some] with a callback that cannot throw. *)
Definition some {A : Type} (xs : list A) (f : A -> bool) : bool := existsb f xs.

(** ** Data model *)

(** [type RiskLevel = 'low' | 'moderate' | 'high' | 'unknown'] *)
Inductive RiskLevel : Type :=
| low
| moderate
| high
| unknown.

Definition RiskLevel_str (r : RiskLevel) : string :=
  match r with
  | low => "low"
  | moderate => "moderate"
  | high => "high"
  | unknown => "unknown"
  end.

Definition RiskLevel_eqb (a b : RiskLevel) : bool :=
  match a, b with
  | low, low | moderate, moderate | high, high | unknown, unknown => true
  | _, _ => false
  end.

Inductive Status : Type :=
| normal
| review.

(** [{ status: 'normal' | 'review'; text: string }] *)
Record ModalitySummary : Type := mkSummary {
  status : Status;
  text : string
}.

(** ** normalizeRisk (Results.tsx, lines 22-26) *)

Definition normalizeRisk (r : JsValue) : RiskLevel :=
  let s := toLowerCase (trim (orEmpty r)) in
  if (s =? "low") then low
  else if (s =? "moderate") then moderate
  else if (s =? "high") then high
  else unknown.

(** ** riskFromCombined (Results.tsx, lines 29-39) *)

(** The local arrays [low], [high] and [mid]. *)
Definition lowPhrases : list string :=
  ["low risk"; "no pcos"; "non-pcos"; "negative"; "no symptoms"].
Definition highPhrases : list string :=
  ["high risk"; "positive"; "pcos detected"; "likely pcos"].
Definition midPhrases : list string :=
  ["moderate"; "possible"; "may suggest"].

Definition riskFromCombined (combined : option string) : RiskLevel :=
  match combined with
  | None => unknown
  | Some c =>
      if negb (truthy c) then unknown
      else
        let lower := toLowerCase c in
        if some lowPhrases (fun w => includes lower w) then low
        else if some highPhrases (fun w => includes lower w) then high
        else if some midPhrases (fun w => includes lower w) then moderate
        else unknown
  end.


(** ** Regular expressions: the fragment built by [hasWord]

    A pattern of this fragment is a sequence of literal characters
    (a non-syntax character, or a backslash followed by a syntax
    character) and [\b] assertions.  It has no alternation, group,
    class or quantifier, so matching at a position is deterministic. *)

Module RegExp.

Inductive Term : Type :=
| Char (c : ascii)
| WordBoundary.

Record t : Type := mk {
  terms : list Term;
  ignoreCase : bool
}.

(** SyntaxCharacter :: one of ^ $ \ . * + ? ( ) [ ] { } | *)
Definition isSyntaxCharacter (c : ascii) : bool :=
  existsb (Ascii.eqb c) (list_ascii_of_string "^$\.*+?()[]{}|").

(** Parser of the fragment.  [None]: the pattern is not in the
    fragment (the engine rejects it, or it uses operators that are not
    embedded here). *)
Fixpoint parsePattern (p : string) : option (list Term) :=
  match p with
  | EmptyString => Some []
  | String c rest =>
      if Ascii.eqb c "\" then
        match rest with
        | EmptyString => None
        | String e rest' =>
            if Ascii.eqb e "b" then option_map (cons WordBoundary) (parsePattern rest')
            else if isSyntaxCharacter e then option_map (cons (Char e)) (parsePattern rest')
            else None
        end
      else if isSyntaxCharacter c then None
      else option_map (cons (Char c)) (parsePattern rest)
  end.

Definition parseFlags (flags : string) : option bool :=
  if flags =? "" then Some false
  else if flags =? "i" then Some true
  else None.

(** [new RegExp(pattern, flags)].  A pattern or flag string outside
    the fragment is reported as [Throw SyntaxError], so that [Ok]
    is only claimed where the engine accepts the pattern. *)
Definition construct (pattern flags : string) : result t :=
  match parsePattern pattern, parseFlags flags with
  | Some ts, Some ic => Ok (mk ts ic)
  | _, _ => Throw SyntaxError
  end.

(** Upper-case mapping of a code unit as Canonicalize applies it: the
    result is kept when it is a single code unit; sharp s (two code
    units in upper case) stays itself; micro sign and y with diaeresis
    leave the range (U+039C and U+0178). *)
Definition upper (n : N) : N :=
  if between 97 122 n || (between 224 254 n && negb (n =? 247)%N) then (n - 32)%N
  else if (n =? 181)%N then 924%N
  else if (n =? 255)%N then 376%N
  else n.

(** Canonicalize ( rer, ch ), without the unicode flag. *)
Definition canonicalize (ic : bool) (c : ascii) : N :=
  if ic then upper (code c) else code c.

(** WordCharacters: a-z, A-Z, 0-9 and underscore. *)
Definition isWordCharacter (c : ascii) : bool :=
  let n := code c in
  between 97 122 n || between 65 90 n || between 48 57 n || (n =? 95)%N.

(** IsWordChar at the code unit before the current position
    ([None]: start of input) and at the current position. *)
Definition wordBefore (prev : option ascii) : bool :=
  match prev with
  | Some c => isWordCharacter c
  | None => false
  end.

Definition wordAt (s : string) : bool :=
  match s with
  | String c _ => isWordCharacter c
  | EmptyString => false
  end.

(** Match [ts] at the current position: [prev] is the code unit just
    before it, [s] the input from it on. *)
Fixpoint matchTerms (ic : bool) (ts : list Term) (prev : option ascii) (s : string) : bool :=
  match ts with
  | [] => true
  | WordBoundary :: k =>
      xorb (wordBefore prev) (wordAt s) && matchTerms ic k prev s
  | Char c :: k =>
      match s with
      | EmptyString => false
      | String d s' =>
          (canonicalize ic c =? canonicalize ic d)%N && matchTerms ic k (Some d) s'
      end
  end.

(** Try every start position from the current one to the end of input. *)
Fixpoint search (ic : bool) (ts : list Term) (prev : option ascii) (s : string) : bool :=
  matchTerms ic ts prev s ||
  match s with
  | EmptyString => false
  | String d s' => search ic ts (Some d) s'
  end.

(** [re.test(s)] for a regular expression without the g and y flags:
    the search starts at index 0. *)
Definition test (re : t) (s : string) : bool :=
  search (ignoreCase re) (terms re) None s.

End RegExp.

(** ** hasWord (Results.tsx, lines 16-19) *)

(** The class [[.*+?^${}()|[\]\\]] of the replace call. *)
Definition isEscapedChar (c : ascii) : bool :=
  existsb (Ascii.eqb c) (list_ascii_of_string ".*+?^${}()|[]\").

(** [word.replace(/[.*+?^${}()|[\]\\]/g, '\\$&')]: a backslash is put
    before every character of the class. *)
Fixpoint escapeRegExp (word : string) : string :=
  match word with
  | EmptyString => EmptyString
  | String c w' =>
      if isEscapedChar c then String "\" (String c (escapeRegExp w'))
      else String c (escapeRegExp w')
  end.

Definition hasWord (haystack word : string) : result bool :=
  let* re := RegExp.construct ("\b" ++ escapeRegExp word ++ "\b") "i" in
  Ok (RegExp.test re haystack).

(** [Array.prototype.some] with a callback that may throw: the elements
    are visited in order, the first [true] stops the scan, an exception
    of the callback propagates. *)
Fixpoint someR {A : Type} (xs : list A) (f : A -> result bool) : result bool :=
  match xs with
  | [] => Ok false
  | x :: xs' =>
      let* b := f x in
      if b then Ok true else someR xs' f
  end.

(** ** summarizeSingle (Results.tsx, lines 42-64) *)

Definition Normal : ModalitySummary := mkSummary normal "Normal".
Definition ReviewNeeded : ModalitySummary := mkSummary review "Review Needed".
Definition NoData : ModalitySummary := mkSummary review "No data".

Definition normalWords : list string :=
  ["normal"; "healthy"; "no symptoms"; "negative"; "non-pcos"; "no pcos"].

Definition summarizeSingle (prediction : option string) (explicitRisk : option RiskLevel)
  : result ModalitySummary :=
  let byLabel :=
    match prediction with
    | None => Ok NoData
    | Some pr =>
        if negb (truthy pr) then Ok NoData
        else
          let p := trim (toLowerCase pr) in
          if (p =? "non_pcos") || (p =? "non-pcos") then Ok Normal
          else if (p =? "unhealthy") || (p =? "pcos") || (p =? "positive")
                  || (p =? "pcos_positive") then Ok ReviewNeeded
          else
            let* found := someR normalWords (fun w => hasWord p w) in
            if found then Ok Normal else Ok ReviewNeeded
    end in
  match explicitRisk with
  | Some r =>
      (* a RiskLevel is a non-empty string, hence truthy *)
      if negb (RiskLevel_eqb r unknown) then
        if RiskLevel_eqb r low then Ok Normal else Ok ReviewNeeded
      else byLabel
  | None => byLabel
  end.

(** ** riskExplanation (Results.tsx, lines 66-77) *)

Definition riskExplanation (risk : RiskLevel) : string :=
  match risk with
  | low =>
      "The analysis shows minimal indicators typically associated with PCOS. Regular monitoring and healthy lifestyle practices are recommended."
  | moderate =>
      "The analysis shows some potential indicators that may warrant further investigation. Consider consulting a healthcare professional for comprehensive evaluation."
  | high =>
      "The analysis indicates several markers that could be associated with PCOS symptoms. Professional medical consultation is strongly recommended."
  | unknown =>
      "The analysis results are inconclusive. Additional testing or consultation may be needed for proper evaluation."
  end.

(** ** Overall risk resolution (Results.tsx, lines 112-121) *)

(** Modelled from the spec: the declaration of [PredictionResponse]
    (module [@/lib/api]) is not part of the sources; the record has the
    optional fields the spec lists for the payload and the page reads. *)
Record PredictionPayload : Type := mkPayload {
  combined : option string;
  face_pred : option string;
  xray_pred : option string;
  overall_risk : JsValue;
  face_risk : JsValue;
  xray_risk : JsValue
}.

Definition overallRisk (results : PredictionPayload) : RiskLevel :=
  if negb (RiskLevel_eqb (normalizeRisk (overall_risk results)) unknown)
  then normalizeRisk (overall_risk results)
  else riskFromCombined (combined results).

Definition faceSummary (results : PredictionPayload) : result ModalitySummary :=
  summarizeSingle (face_pred results) (Some (normalizeRisk (face_risk results))).

Definition xraySummary (results : PredictionPayload) : result ModalitySummary :=
  summarizeSingle (xray_pred results) (Some (normalizeRisk (xray_risk results))).

(** ** Specification-level notions *)

(** The sentence contains the (lower-case) phrase up to case: some
    contiguous run of it lower-cases to the phrase. *)
Definition containsIgnoringCase (sentence phrase : string) : Prop :=
  exists pre mid post,
    sentence = pre ++ mid ++ post /\ toLowerCase mid = phrase.

Definition containsAny (sentence : string) (phrases : list string) : Prop :=
  exists w, In w phrases /\ containsIgnoringCase sentence w.

(** Two runs of equal length whose code units agree up to case, as the
    case-insensitive matcher compares them. *)
Fixpoint equalIgnoringCase (a b : string) : bool :=
  match a, b with
  | EmptyString, EmptyString => true
  | String x a', String y b' =>
      (RegExp.canonicalize true y =? RegExp.canonicalize true x)%N
      && equalIgnoringCase a' b'
  | _, _ => false
  end.

(** Last code unit of [s], or [prev] when [s] is empty. *)
Fixpoint lastFrom (prev : option ascii) (s : string) : option ascii :=
  match s with
  | EmptyString => prev
  | String c s' => lastFrom (Some c) s'
  end.

(** There is a word boundary between the text [before] and the text
    [after]: exactly one of the two adjacent code units is a word
    character (the ends of the input count as non-word). *)
Definition boundaryBetween (before after : string) : bool :=
  xorb (RegExp.wordBefore (lastFrom None before)) (RegExp.wordAt after).

(** [word] occurs in [haystack] as a whole token. *)
Definition occursAsWord (haystack word : string) : Prop :=
  exists pre mid post,
    haystack = pre ++ mid ++ post
    /\ equalIgnoringCase mid word = true
    /\ boundaryBetween pre (mid ++ post) = true
    /\ boundaryBetween (pre ++ mid) post = true.

(** The terms of the pattern that [hasWord] builds for [word]. *)
Definition literal (word : string) : list RegExp.Term :=
  map RegExp.Char (list_ascii_of_string word).

Definition wordPattern (word : string) : list RegExp.Term :=
  RegExp.WordBoundary :: literal word ++ [RegExp.WordBoundary].

Definition wholeWordMatch (haystack word : string) : bool :=
  RegExp.test (RegExp.mk (wordPattern word) true) haystack.

Definition isBlank (s : string) : bool :=
  forallb isWhiteSpace (list_ascii_of_string s).

(** Steps 3 to 5 of the decision order, on a supplied label. *)
Definition classifyLabel (label : string) : ModalitySummary :=
  let p := trim (toLowerCase label) in
  if existsb (String.eqb p) ["non_pcos"; "non-pcos"] then Normal
  else if existsb (String.eqb p) ["unhealthy"; "pcos"; "positive"; "pcos_positive"]
  then ReviewNeeded
  else if existsb (wholeWordMatch p) normalWords then Normal
  else ReviewNeeded.

(** The five-step decision order as the specification words it: step 2
    applies when no label is supplied. *)
Definition specifiedSummary (prediction : option string) (explicitRisk : option RiskLevel)
  : ModalitySummary :=
  match explicitRisk with
  | Some low => Normal
  | Some moderate | Some high => ReviewNeeded
  | Some unknown | None =>
      match prediction with
      | None => NoData
      | Some label => classifyLabel label
      end
  end.

(** The decision order with step 2 extended to the empty label. *)
Definition amendedSummary (prediction : option string) (explicitRisk : option RiskLevel)
  : ModalitySummary :=
  match explicitRisk with
  | Some low => Normal
  | Some moderate | Some high => ReviewNeeded
  | Some unknown | None =>
      match prediction with
      | None => NoData
      | Some label => if label =? "" then NoData else classifyLabel label
      end
  end.

(** ** The report rendered by ResultsPage (Results.tsx, lines 85-295)

    The page is embedded as the data it displays: the texts, the colour
    and icon choices and the properties handed to [RiskGauge] and
    [ResultCard].  Scores and images are passed through unchanged and are
    left out, as is the gauge confidence (floating point). *)

Module ResultsView.

Inductive Tone : Type :=
| Emerald
| Rose
| Amber.

Inductive Icon : Type :=
| CheckCircle
| AlertTriangle.

(** One "Analysis Summary" chip. *)
Record Chip : Type := mkChip {
  chipTone : Tone;
  chipIcon : Icon;
  chipCaption : string;
  chipText : string
}.

(** The properties of a [ResultCard] that the page computes. *)
Record ResultCardProps : Type := mkCard {
  cardTitle : string;
  cardPrediction : string;
  cardRiskLevel : RiskLevel
}.

Record Report : Type := mkReport {
  badgeTone : Tone;
  badgeText : string;
  combinedText : string;
  explanation : string;
  faceChip : option Chip;
  xrayChip : option Chip;
  gaugeRiskLevel : RiskLevel;
  faceCard : option ResultCardProps;
  xrayCard : option ResultCardProps
}.

Inductive Page : Type :=
| NoResultsFound
| ReportPage (r : Report).

(** The class chosen for the overall badge. *)
Definition badgeToneOf (risk : RiskLevel) : Tone :=
  if RiskLevel_eqb risk low then Emerald
  else if RiskLevel_eqb risk high then Rose
  else Amber.

(** [overallRisk === 'unknown' ? 'Pending Analysis' : `${overallRisk} Risk`] *)
Definition badgeTextOf (risk : RiskLevel) : string :=
  if RiskLevel_eqb risk unknown then "Pending Analysis"
  else RiskLevel_str risk ++ " Risk".

(** [results.combined || 'Analysis in progress...'] *)
Definition combinedTextOf (combined : option string) : string :=
  match combined with
  | Some c => if truthy c then c else "Analysis in progress..."
  | None => "Analysis in progress..."
  end.

Definition isNormal (s : ModalitySummary) : bool :=
  match status s with
  | normal => true
  | review => false
  end.

(** [pred && <chip .../>]: nothing is rendered for a missing or empty
    prediction. *)
Definition chipOf (caption : string) (pred : option string) (summary : ModalitySummary)
  : option Chip :=
  match pred with
  | Some p =>
      if truthy p then
        Some (mkChip (if isNormal summary then Emerald else Amber)
                     (if isNormal summary then CheckCircle else AlertTriangle)
                     caption (text summary))
      else None
  | None => None
  end.

(** [pred && <ResultCard ... riskLevel={status === 'normal' ? 'low' : 'moderate'} />] *)
Definition cardOf (title : string) (pred : option string) (summary : ModalitySummary)
  : option ResultCardProps :=
  match pred with
  | Some p =>
      if truthy p then
        Some (mkCard title p (if isNormal summary then low else moderate))
      else None
  | None => None
  end.

(** [ResultsPage], from the router state ([None]: no results). *)
Definition ResultsPage (state : option PredictionPayload) : result Page :=
  match state with
  | None => Ok NoResultsFound
  | Some results =>
      let risk := overallRisk results in
      let* face := faceSummary results in
      let* xray := xraySummary results in
      Ok (ReportPage
            (mkReport (badgeToneOf risk) (badgeTextOf risk)
               (combinedTextOf (combined results))
               (riskExplanation risk)
               (chipOf "Facial Analysis:" (face_pred results) face)
               (chipOf "Imaging Analysis:" (xray_pred results) xray)
               risk
               (cardOf "Facial Analysis" (face_pred results) face)
               (cardOf "X-ray Analysis" (xray_pred results) xray)))
  end.

End ResultsView.

(** ** SampleImages: the [choose] handler (SampleImages.tsx, lines 53-79) *)

Module SampleImages.

(** [/^https?:\/\//i.test(url)]: the pattern is anchored at the start of
    the input; the optional [s] is tried first. *)
Definition isExternalUrl (url : string) : bool :=
  RegExp.matchTerms true (literal "https://") None url
  || RegExp.matchTerms true (literal "http://") None url.

(** uriUnreserved: letters, digits and - _ . ! ~ * ' ( ) *)
Definition isUnreserved (c : ascii) : bool :=
  let n := code c in
  between 97 122 n || between 65 90 n || between 48 57 n
  || existsb (Ascii.eqb c) (list_ascii_of_string "-_.!~*'()").

Definition hexDigit (n : N) : ascii :=
  if (n <? 10)%N then ascii_of_N (48 + n) else ascii_of_N (55 + n).

(** [%XY] for one octet. *)
Definition percent (octet : N) : string :=
  String "%" (String (hexDigit (octet / 16)) (String (hexDigit (octet mod 16)) "")).

(** UTF-8 octets of a code unit of the range: one octet below 0x80, two
    octets from 0x80 to 0xFF. *)
Definition utf8 (n : N) : list N :=
  if (n <? 128)%N then [n] else [(192 + n / 64)%N; (128 + n mod 64)%N].

Definition encodeChar (c : ascii) : string :=
  if isUnreserved c then String c ""
  else String.concat "" (map percent (utf8 (code c))).

(** [encodeURIComponent].  The range holds no surrogate code unit, so
    the URIError case does not arise. *)
Fixpoint encodeURIComponent (s : string) : string :=
  match s with
  | EmptyString => EmptyString
  | String c s' => encodeChar c ++ encodeURIComponent s'
  end.

(** The URL that [choose] fetches for a sample URL. *)
Definition requestUrl (url : string) : string :=
  if isExternalUrl url then "/img-proxy?url=" ++ encodeURIComponent url
  else url.

(** [s.replace(/\s+/g, '-')]: [inRun] tells that the code unit before
    was white space already replaced. *)
Fixpoint replaceWhiteSpaceRuns (inRun : bool) (s : string) : string :=
  match s with
  | EmptyString => EmptyString
  | String c s' =>
      if isWhiteSpace c then
        if inRun then replaceWhiteSpaceRuns true s'
        else String "-" (replaceWhiteSpaceRuns true s')
      else String c (replaceWhiteSpaceRuns false s')
  end.

(** [`${sample.name.toLowerCase().replace(/\s+/g, '-')}.jpg`] *)
Definition fileNameOf (name : string) : string :=
  replaceWhiteSpaceRuns false (toLowerCase name) ++ ".jpg".

Inductive SampleType : Type :=
| face
| xray.

Record Sample : Type := mkSample {
  sample_id : string;
  sample_name : string;
  sample_url : string
}.

Record Blob : Type := mkBlob {
  blob_type : string
}.

Record Response : Type := mkResponse {
  ok : bool;
  http_status : N
}.

(** The [File] built from the blob (the time stamp is left out). *)
Record File : Type := mkFile {
  file_name : string;
  file_type : string
}.

(** What is thrown inside [choose]: its own [Error] for a response that
    is not ok, or the rejection of a collaborator. *)
Inductive Exn : Type :=
| FetchError (name : string) (httpStatus : N)
| Rejection (reason : string).

Inductive Outcome (A : Type) : Type :=
| Returned (a : A)
| Raised (e : Exn).

Arguments Returned {A} a.
Arguments Raised {A} e.

Section Choose.

(** The type [ProcessedImage] of [@/lib/image]. *)
Variable Processed : Type.

(** The collaborators of one call, each with the outcome it has:
    [fetch], [res.blob()], [fixImageOrientation] (module [@/lib/image])
    and the [onSelectSample] callback may return or throw.  The state
    setter, [console.error] and the toasts are taken to return. *)
Record World : Type := mkWorld {
  fetch : string -> Outcome Response;
  blob : Response -> Outcome Blob;
  fixImageOrientation : File -> Outcome Processed;
  onSelectSample : SampleType -> Processed -> Outcome unit
}.

(** The observable actions of [choose], in the order they happen. *)
Inductive Effect : Type :=
| SetIsLoading (v : option string)
| Fetch (url : string)
| ReadBlob
| FixImageOrientation (file : File)
| OnSelectSample (type : SampleType) (processed : Processed)
| ToastSuccess (message : string)
| ToastError (message : string)
| ConsoleError (e : Exn).

(** A computation: the actions done so far and how it ended. *)
Definition M (A : Type) : Type := (list Effect * Outcome A)%type.

Definition emit (e : Effect) : M unit := ([e], Returned tt).

Definition raise {A : Type} (e : Exn) : M A := ([], Raised e).

(** A call of a collaborator: the call is observed, then it returns or
    throws. *)
Definition call {A : Type} (e : Effect) (o : Outcome A) : M A := ([e], o).

Definition bindM {A B : Type} (m : M A) (k : A -> M B) : M B :=
  match m with
  | (t, Returned a) => let (t', r) := k a in ((t ++ t')%list, r)
  | (t, Raised e) => (t, Raised e)
  end.

(** [try { body } catch (e) { handler }] *)
Definition tryCatch {A : Type} (body : M A) (handler : Exn -> M A) : M A :=
  match body with
  | (t, Raised e) => let (t', r) := handler e in ((t ++ t')%list, r)
  | (t, Returned a) => (t, Returned a)
  end.

(** [try { body } finally { final }] *)
Definition tryFinally {A : Type} (body : M A) (final : M unit) : M A :=
  match body, final with
  | (t, r), (t', Returned _) => ((t ++ t')%list, r)
  | (t, _), (t', Raised e) => ((t ++ t')%list, Raised e)
  end.

Definition choose (w : World) (type : SampleType) (sample : Sample) : M unit :=
  bindM (emit (SetIsLoading (Some (sample_id sample)))) (fun _ =>
  tryFinally
    (tryCatch
       (let url := requestUrl (sample_url sample) in
        bindM (call (Fetch url) (fetch w url)) (fun res =>
        if negb (ok res) then raise (FetchError (sample_name sample) (http_status res))
        else
          bindM (call ReadBlob (blob w res)) (fun b =>
          let file :=
            mkFile (fileNameOf (sample_name sample))
                   (if truthy (blob_type b) then blob_type b else "image/jpeg") in
          bindM (call (FixImageOrientation file) (fixImageOrientation w file))
            (fun processed =>
          bindM (call (OnSelectSample type processed) (onSelectSample w type processed))
            (fun _ =>
          emit (ToastSuccess ("Loaded " ++ sample_name sample)))))))
       (fun e =>
          bindM (emit (ConsoleError e)) (fun _ =>
          emit (ToastError "Failed to load sample image"))))
    (emit (SetIsLoading None))).

End Choose.

Arguments SetIsLoading {Processed} v.
Arguments Fetch {Processed} url.
Arguments ReadBlob {Processed}.
Arguments FixImageOrientation {Processed} file.
Arguments OnSelectSample {Processed} type processed.
Arguments ToastSuccess {Processed} message.
Arguments ToastError {Processed} message.
Arguments ConsoleError {Processed} e.
Arguments fetch {Processed} w _.
Arguments blob {Processed} w _.
Arguments fixImageOrientation {Processed} w _.
Arguments onSelectSample {Processed} w _ _.
Arguments choose {Processed} w type sample.

End SampleImages.

(** ** Notions used to state the further properties *)

(** Order in which [riskFromCombined] prefers the levels. *)
Definition priority (r : RiskLevel) : nat :=
  match r with
  | unknown => 0
  | moderate => 1
  | high => 2
  | low => 3
  end.

Definition hasWordCharacter (s : string) : Prop :=
  exists pre c post, s = pre ++ String c post /\ RegExp.isWordCharacter c = true.

Definition lowerTerm (t : RegExp.Term) : RegExp.Term :=
  match t with
  | RegExp.Char c => RegExp.Char (toLowerChar c)
  | RegExp.WordBoundary => RegExp.WordBoundary
  end.

(** The lower case of a code unit can be read off its canonical form. *)
Definition lowerOfCanonical (n : N) : ascii :=
  if (n =? 924)%N then ascii_of_N 181
  else if (n =? 376)%N then ascii_of_N 255
  else toLowerChar (ascii_of_N n).

(** The normal words that are low-risk phrases as well. *)
Definition sharedPhrases : list string :=
  ["no symptoms"; "negative"; "non-pcos"; "no pcos"].

(** What the page shows for one modality: nothing for a missing or empty
    prediction, otherwise a chip and a card that agree. *)
Definition rendered (caption title : string) (pred : option string)
    (chip : option ResultsView.Chip) (card : option ResultsView.ResultCardProps) : Prop :=
  match pred with
  | Some (String c l) =>
      (chip = Some (ResultsView.mkChip ResultsView.Emerald ResultsView.CheckCircle
                      caption "Normal")
       /\ card = Some (ResultsView.mkCard title (String c l) low))
      \/ (chip = Some (ResultsView.mkChip ResultsView.Amber ResultsView.AlertTriangle
                         caption "Review Needed")
          /\ card = Some (ResultsView.mkCard title (String c l) moderate))
  | Some EmptyString | None => chip = None /\ card = None
  end.

(** A character that [encodeURIComponent] may produce. *)
Definition isEncoded (c : ascii) : bool :=
  SampleImages.isUnreserved c || Ascii.eqb c "%".

(** A character that separates or delimits the parts of a query. *)
Definition isQueryDelimiter (c : ascii) : bool :=
  existsb (Ascii.eqb c) (list_ascii_of_string "&#?=/: ").

(** Neither white space nor a letter that has a lower case. *)
Definition isPlain (c : ascii) : bool :=
  negb (isWhiteSpace c) && negb (hasLower (code c)).

Section ChooseRunsDef.

Import SampleImages.

Variable Processed : Type.

Implicit Types (w : World Processed) (type : SampleType) (sample : Sample).

(** The file handed to [fixImageOrientation] for a blob. *)
Definition fileFor (sample : Sample) (b : Blob) : File :=
  mkFile (fileNameOf (sample_name sample))
         (if truthy (blob_type b) then blob_type b else "image/jpeg").

(** The ways a call of [choose] can go, each with its whole trace. *)
Inductive Run w type sample : M Processed unit -> Prop :=
| RunFetchRejected e :
    fetch w (requestUrl (sample_url sample)) = Raised e ->
    Run w type sample
      ([SetIsLoading (Some (sample_id sample));
        Fetch (requestUrl (sample_url sample));
        ConsoleError e; ToastError "Failed to load sample image";
        SetIsLoading None], Returned tt)
| RunNotOk res :
    fetch w (requestUrl (sample_url sample)) = Returned res ->
    ok res = false ->
    Run w type sample
      ([SetIsLoading (Some (sample_id sample));
        Fetch (requestUrl (sample_url sample));
        ConsoleError (FetchError (sample_name sample) (http_status res));
        ToastError "Failed to load sample image";
        SetIsLoading None], Returned tt)
| RunBlobRejected res e :
    fetch w (requestUrl (sample_url sample)) = Returned res ->
    ok res = true ->
    blob w res = Raised e ->
    Run w type sample
      ([SetIsLoading (Some (sample_id sample));
        Fetch (requestUrl (sample_url sample)); ReadBlob;
        ConsoleError e; ToastError "Failed to load sample image";
        SetIsLoading None], Returned tt)
| RunFixRejected res b e :
    fetch w (requestUrl (sample_url sample)) = Returned res ->
    ok res = true ->
    blob w res = Returned b ->
    fixImageOrientation w (fileFor sample b) = Raised e ->
    Run w type sample
      ([SetIsLoading (Some (sample_id sample));
        Fetch (requestUrl (sample_url sample)); ReadBlob;
        FixImageOrientation (fileFor sample b);
        ConsoleError e; ToastError "Failed to load sample image";
        SetIsLoading None], Returned tt)
| RunSelectThrew res b p e :
    fetch w (requestUrl (sample_url sample)) = Returned res ->
    ok res = true ->
    blob w res = Returned b ->
    fixImageOrientation w (fileFor sample b) = Returned p ->
    onSelectSample w type p = Raised e ->
    Run w type sample
      ([SetIsLoading (Some (sample_id sample));
        Fetch (requestUrl (sample_url sample)); ReadBlob;
        FixImageOrientation (fileFor sample b);
        OnSelectSample type p;
        ConsoleError e; ToastError "Failed to load sample image";
        SetIsLoading None], Returned tt)
| RunLoaded res b p :
    fetch w (requestUrl (sample_url sample)) = Returned res ->
    ok res = true ->
    blob w res = Returned b ->
    fixImageOrientation w (fileFor sample b) = Returned p ->
    onSelectSample w type p = Returned tt ->
    Run w type sample
      ([SetIsLoading (Some (sample_id sample));
        Fetch (requestUrl (sample_url sample)); ReadBlob;
        FixImageOrientation (fileFor sample b);
        OnSelectSample type p;
        ToastSuccess ("Loaded " ++ sample_name sample);
        SetIsLoading None], Returned tt).

End ChooseRunsDef.

Arguments Run {Processed} w type sample _.

Module Percent.

(** Reading a percent-encoded string back, one code unit at a time. *)
Definition hexValue (c : ascii) : option N :=
  let n := code c in
  if between 48 57 n then Some (n - 48)%N
  else if between 65 70 n then Some (n - 55)%N
  else None.

Definition octet (h1 h2 : ascii) : option N :=
  match hexValue h1, hexValue h2 with
  | Some a, Some b => Some (16 * a + b)%N
  | _, _ => None
  end.

(** An escape [%XY] at the head of [s], with the rest. *)
Definition escape (s : string) : option (N * string) :=
  match s with
  | String p (String h1 (String h2 rest)) =>
      if Ascii.eqb p "%" then
        match octet h1 h2 with
        | Some o => Some (o, rest)
        | None => None
        end
      else None
  | _ => None
  end.

(** The first code unit of the encoded string [s], with the rest: a
    literal character, one escape (below 0x80) or two escapes (the UTF-8
    form of 0x80 to 0xFF). *)
Definition decodeFirst (s : string) : option (ascii * string) :=
  match s with
  | EmptyString => None
  | String c rest =>
      if Ascii.eqb c "%" then
        match escape s with
        | Some (o, rest1) =>
            if (o <? 128)%N then Some (ascii_of_N o, rest1)
            else
              match escape rest1 with
              | Some (o2, rest2) =>
                  if between 194 195 o && between 128 191 o2
                  then Some (ascii_of_N ((o - 192) * 64 + (o2 - 128)), rest2)
                  else None
              | None => None
              end
        | None => None
        end
      else Some (c, rest)
  end.

Fixpoint decodeWith (fuel : nat) (s : string) : option string :=
  match s with
  | EmptyString => Some EmptyString
  | String _ _ =>
      match fuel with
      | O => None
      | S fuel' =>
          match decodeFirst s with
          | Some (c, rest) => option_map (String c) (decodeWith fuel' rest)
          | None => None
          end
      end
  end.

(** Every step consumes at least one character, so the length of the
    input is fuel enough. *)
Definition decode (s : string) : option string := decodeWith (String.length s) s.

End Percent.

Module Trace.

Section Projections.

Variable Processed : Type.

(** The values written to the loading flag, in order. *)
Fixpoint loadingWrites (t : list (SampleImages.Effect Processed)) : list (option string) :=
  match t with
  | [] => []
  | SampleImages.SetIsLoading v :: t' => v :: loadingWrites t'
  | _ :: t' => loadingWrites t'
  end.

(** The images handed to [onSelectSample], in order. *)
Fixpoint selections (t : list (SampleImages.Effect Processed)) : list (SampleImages.SampleType * Processed) :=
  match t with
  | [] => []
  | SampleImages.OnSelectSample ty p :: t' => (ty, p) :: selections t'
  | _ :: t' => selections t'
  end.

(** The toasts shown, in order: [true] for a success toast. *)
Fixpoint toasts (t : list (SampleImages.Effect Processed)) : list (bool * string) :=
  match t with
  | [] => []
  | SampleImages.ToastSuccess m :: t' => (true, m) :: toasts t'
  | SampleImages.ToastError m :: t' => (false, m) :: toasts t'
  | _ :: t' => toasts t'
  end.

(** The URLs fetched, in order. *)
Fixpoint fetched (t : list (SampleImages.Effect Processed)) : list string :=
  match t with
  | [] => []
  | SampleImages.Fetch u :: t' => u :: fetched t'
  | _ :: t' => fetched t'
  end.

End Projections.

Arguments loadingWrites {Processed} t.
Arguments selections {Processed} t.
Arguments toasts {Processed} t.
Arguments fetched {Processed} t.

End Trace.

(** * Properties *)

(** ** Strings *)

Section StringFacts.

Lemma append_assoc (a b c : string) : (a ++ b) ++ c = a ++ (b ++ c).
Proof. induction a as [|x a IH]; simpl; [reflexivity | now rewrite IH]. Qed.

Lemma append_empty_r (a : string) : a ++ "" = a.
Proof. induction a as [|x a IH]; simpl; [reflexivity | now rewrite IH]. Qed.

Lemma toLowerCase_app (a b : string) :
  toLowerCase (a ++ b) = toLowerCase a ++ toLowerCase b.
Proof. induction a as [|x a IH]; simpl; [reflexivity | now rewrite IH]. Qed.

(** Lower-casing works code unit by code unit, so a split of the
    result comes from a split of the argument. *)
Lemma toLowerCase_split (s a b : string) :
  toLowerCase s = a ++ b ->
  exists s1 s2, s = s1 ++ s2 /\ toLowerCase s1 = a /\ toLowerCase s2 = b.
Proof.
  revert s; induction a as [|x a IH]; intros s H.
  - exists "", s. auto.
  - destruct s as [|c s]; simpl in H; [discriminate|].
    injection H as Hc Hs.
    destruct (IH _ Hs) as (s1 & s2 & -> & H1 & H2).
    exists (String c s1), s2. simpl. now rewrite Hc, H1.
Qed.

Lemma startsWith_spec (s w : string) :
  startsWith s w = true <-> exists post, s = w ++ post.
Proof.
  revert s; induction w as [|b w IH]; intros s; simpl.
  - split; [intros _; now exists s | reflexivity].
  - destruct s as [|a s].
    + split; [discriminate | intros [post H]; discriminate].
    + rewrite andb_true_iff, Ascii.eqb_eq, IH. split.
      * intros [-> [post ->]]. now exists post.
      * intros [post H]. injection H as -> ->. split; [reflexivity | now exists post].
Qed.

Lemma includes_spec (s w : string) :
  includes s w = true <-> exists pre post, s = pre ++ w ++ post.
Proof.
  induction s as [|c s IH]; simpl; rewrite orb_true_iff, startsWith_spec.
  - split.
    + intros [[post H] | H]; [now exists "", post | discriminate].
    + intros (pre & post & H). left. destruct pre; [now exists post | discriminate].
  - rewrite IH. split.
    + intros [[post H] | (pre & post & H)].
      * now exists "", post.
      * exists (String c pre), post. simpl. now rewrite H.
    + intros (pre & post & H). destruct pre as [|x pre]; simpl in H.
      * left. now exists post.
      * right. injection H as _ H. now exists pre, post.
Qed.

Lemma includes_lower_spec (s w : string) :
  includes (toLowerCase s) w = true <-> containsIgnoringCase s w.
Proof.
  rewrite includes_spec. split.
  - intros (a & b & H).
    destruct (toLowerCase_split _ _ _ H) as (pre & rest & -> & _ & H2).
    destruct (toLowerCase_split _ _ _ H2) as (mid & post & -> & H3 & _).
    now exists pre, mid, post.
  - intros (pre & mid & post & -> & <-).
    exists (toLowerCase pre), (toLowerCase post).
    now rewrite !toLowerCase_app.
Qed.

Lemma some_lower_spec (s : string) (phrases : list string) :
  some phrases (fun w => includes (toLowerCase s) w) = true <-> containsAny s phrases.
Proof.
  unfold some, containsAny. rewrite existsb_exists.
  split; intros (w & Hin & H); exists w; split; trivial; now apply includes_lower_spec.
Qed.

Lemma whiteSpace_not_upper (c : ascii) :
  isWhiteSpace c = true -> toLowerChar c = c.
Proof.
  destruct c as [[] [] [] [] [] [] [] []]; vm_compute; intros H;
    first [reflexivity | discriminate H].
Qed.

Lemma trim_lower_blank (s : string) :
  isBlank s = true -> trim (toLowerCase s) = "".
Proof.
  unfold isBlank, trim. induction s as [|c s IH]; simpl; [reflexivity|].
  rewrite andb_true_iff. intros [Hc Hs].
  rewrite (whiteSpace_not_upper c Hc), Hc. now apply IH.
Qed.

End StringFacts.

(** ** The pattern built by hasWord *)

Section Pattern.

Import RegExp.

Lemma escaped_char_cases (c : ascii) :
  if isEscapedChar c
  then Ascii.eqb c "b" = false /\ isSyntaxCharacter c = true
  else Ascii.eqb c "\" = false /\ isSyntaxCharacter c = false.
Proof.
  destruct c as [[] [] [] [] [] [] [] []]; vm_compute; split; reflexivity.
Qed.

Lemma parsePattern_backslash (e : ascii) (rest : string) :
  parsePattern (String "\" (String e rest)) =
  if Ascii.eqb e "b" then option_map (cons WordBoundary) (parsePattern rest)
  else if isSyntaxCharacter e then option_map (cons (Char e)) (parsePattern rest)
  else None.
Proof. reflexivity. Qed.

Lemma parsePattern_plain (c : ascii) (rest : string) :
  Ascii.eqb c "\" = false ->
  parsePattern (String c rest) =
  if isSyntaxCharacter c then None else option_map (cons (Char c)) (parsePattern rest).
Proof. intros H. change (parsePattern (String c rest)) with
  (if Ascii.eqb c "\" then
     match rest with
     | EmptyString => None
     | String e rest' =>
         if Ascii.eqb e "b" then option_map (cons WordBoundary) (parsePattern rest')
         else if isSyntaxCharacter e then option_map (cons (Char e)) (parsePattern rest')
         else None
     end
   else if isSyntaxCharacter c then None
   else option_map (cons (Char c)) (parsePattern rest)).
  now rewrite H.
Qed.

(** Escaping makes every character of the word a literal of the
    pattern, whatever follows it. *)
Lemma parsePattern_escaped (word k : string) (ts : list Term) :
  parsePattern k = Some ts ->
  parsePattern (escapeRegExp word ++ k) = Some (literal word ++ ts)%list.
Proof.
  intros Hk. induction word as [|c w IH]; [exact Hk|].
  unfold literal in *. simpl escapeRegExp. simpl list_ascii_of_string. simpl map.
  pose proof (escaped_char_cases c) as Hc.
  destruct (isEscapedChar c); destruct Hc as [H1 H2].
  - change (parsePattern (String "\" (String c (escapeRegExp w ++ k))) =
            Some ((Char c :: map Char (list_ascii_of_string w)) ++ ts)%list).
    rewrite parsePattern_backslash, H1, H2, IH. reflexivity.
  - change (parsePattern (String c (escapeRegExp w ++ k)) =
            Some ((Char c :: map Char (list_ascii_of_string w)) ++ ts)%list).
    rewrite (parsePattern_plain _ _ H1), H2, IH. reflexivity.
Qed.

Lemma construct_wordPattern (word : string) :
  construct ("\b" ++ escapeRegExp word ++ "\b") "i" = Ok (mk (wordPattern word) true).
Proof.
  unfold construct.
  change ("\b" ++ escapeRegExp word ++ "\b")
    with (String "\" (String "b" (escapeRegExp word ++ "\b"))).
  rewrite parsePattern_backslash.
  change (Ascii.eqb "b" "b") with true. cbv iota.
  rewrite (parsePattern_escaped word "\b" [WordBoundary] eq_refl).
  reflexivity.
Qed.

Lemma hasWord_eq (haystack word : string) :
  hasWord haystack word = Ok (wholeWordMatch haystack word).
Proof. unfold hasWord. now rewrite construct_wordPattern. Qed.

Lemma lastFrom_app (prev : option ascii) (a b : string) :
  lastFrom prev (a ++ b) = lastFrom (lastFrom prev a) b.
Proof. revert prev; induction a as [|x a IH]; intros prev; simpl; auto. Qed.

(** Matching a run of literals consumes a run of the input that equals
    it up to case, and goes on after it. *)
Lemma matchTerms_literal (ic := true) (word : string) (k : list Term)
      (prev : option ascii) (s : string) :
  matchTerms ic (literal word ++ k)%list prev s = true <->
  exists mid rest,
    s = mid ++ rest /\ equalIgnoringCase mid word = true
    /\ matchTerms ic k (lastFrom prev mid) rest = true.
Proof.
  unfold literal. revert prev s.
  induction word as [|c w IH]; intros prev s; simpl.
  - split.
    + intros H. exists "", s. auto.
    + intros (mid & rest & -> & He & H). destruct mid; [exact H | discriminate].
  - destruct s as [|d s].
    + split; [discriminate|].
      intros (mid & rest & Hs & He & _). destruct mid; discriminate.
    + rewrite andb_true_iff, IH. split.
      * intros [Hc (mid & rest & -> & He & H)].
        exists (String d mid), rest. simpl. now rewrite Hc, He.
      * intros (mid & rest & Hs & He & H).
        destruct mid as [|x mid]; [discriminate|].
        simpl in Hs, He, H. injection Hs as -> ->.
        apply andb_true_iff in He as [Hc He].
        split; [exact Hc | now exists mid, rest].
Qed.

(** The search succeeds exactly when the terms match after some prefix
    of the input. *)
Lemma search_spec (ic : bool) (ts : list Term) (prev : option ascii) (s : string) :
  search ic ts prev s = true <->
  exists pre post, s = pre ++ post /\ matchTerms ic ts (lastFrom prev pre) post = true.
Proof.
  revert prev; induction s as [|d s IH]; intros prev; simpl; rewrite orb_true_iff.
  - split.
    + intros [H | H]; [now exists "", "" | discriminate].
    + intros (pre & post & Hs & H). left.
      destruct pre; [|discriminate]. simpl in Hs. now subst post.
  - rewrite IH. split.
    + intros [H | (pre & post & -> & H)].
      * now exists "", (String d s).
      * now exists (String d pre), post.
    + intros (pre & post & Hs & H). destruct pre as [|x pre]; simpl in Hs, H.
      * left. now subst post.
      * right. injection Hs as -> ->. now exists pre, post.
Qed.

Lemma wholeWordMatch_spec (haystack word : string) :
  wholeWordMatch haystack word = true <-> occursAsWord haystack word.
Proof.
  unfold wholeWordMatch, test, wordPattern, occursAsWord, boundaryBetween.
  cbn [terms ignoreCase]. rewrite search_spec. split.
  - intros (pre & rest & -> & H).
    cbn [matchTerms] in H. apply andb_true_iff in H as [Hb H].
    apply matchTerms_literal in H as (mid & post & -> & He & H).
    cbn [matchTerms] in H. rewrite andb_true_r in H.
    exists pre, mid, post. rewrite lastFrom_app. auto.
  - intros (pre & mid & post & -> & He & Hb1 & Hb2).
    exists pre, (mid ++ post). split; [reflexivity|].
    cbn [matchTerms]. rewrite Hb1. cbn [andb].
    apply matchTerms_literal. exists mid, post.
    split; [reflexivity|]. split; [exact He|].
    cbn [matchTerms]. rewrite andb_true_r. now rewrite <- lastFrom_app.
Qed.

Lemma someR_hasWord (p : string) (words : list string) :
  someR words (fun w => hasWord p w) = Ok (existsb (wholeWordMatch p) words).
Proof.
  induction words as [|w ws IH]; [reflexivity|].
  cbn [someR existsb]. rewrite hasWord_eq. cbn [bind].
  destruct (wholeWordMatch p w); [reflexivity | exact IH].
Qed.

End Pattern.

(** ** normalizeRisk *)

(** C5: normalizeRisk trims and lower-cases its argument (taken as the
    empty string when it is undefined, null or empty); it returns that
    normalized value when it is one of low, moderate and high, and
    unknown for every other argument. *)
Theorem normalizeRisk_spec (r : JsValue) :
  let s := toLowerCase (trim (orEmpty r)) in
  (In s ["low"; "moderate"; "high"] -> RiskLevel_str (normalizeRisk r) = s)
  /\ (~ In s ["low"; "moderate"; "high"] -> normalizeRisk r = unknown)
  /\ normalizeRisk JsUndefined = unknown
  /\ normalizeRisk JsNull = unknown
  /\ normalizeRisk (JsStr "") = unknown.
Proof.
  intros s. unfold normalizeRisk. fold s.
  repeat split; try reflexivity.
  - intros [<- | [<- | [<- | []]]]; reflexivity.
  - intros Hn.
    destruct (s =? "low") eqn:E1;
      [apply String.eqb_eq in E1; exfalso; apply Hn; simpl; auto|].
    destruct (s =? "moderate") eqn:E2;
      [apply String.eqb_eq in E2; exfalso; apply Hn; simpl; auto|].
    destruct (s =? "high") eqn:E3;
      [apply String.eqb_eq in E3; exfalso; apply Hn; simpl; auto|].
    reflexivity.
Qed.

Lemma normalizeRisk_spec_witness :
  RiskLevel_str (normalizeRisk (JsStr "  HIGH ")) = "high"
  /\ normalizeRisk (JsStr "severe") = unknown.
Proof.
  split.
  - destruct (normalizeRisk_spec (JsStr "  HIGH ")) as (Hin & _).
    apply Hin. simpl. auto.
  - destruct (normalizeRisk_spec (JsStr "severe")) as (_ & Hout & _).
    apply Hout. simpl. intros [H | [H | [H | []]]]; discriminate H.
Defined.

(** C8: normalizeRisk is idempotent: normalizing the string it returned
    gives the same risk level. *)
Theorem normalizeRisk_idempotent (x : JsValue) :
  normalizeRisk (JsStr (RiskLevel_str (normalizeRisk x))) = normalizeRisk x.
Proof. destruct (normalizeRisk x); reflexivity. Qed.

(** ** riskFromCombined *)

Lemma riskFromCombined_eq (s : string) :
  riskFromCombined (Some s) =
  if some lowPhrases (fun w => includes (toLowerCase s) w) then low
  else if some highPhrases (fun w => includes (toLowerCase s) w) then high
  else if some midPhrases (fun w => includes (toLowerCase s) w) then moderate
  else unknown.
Proof. destruct s; reflexivity. Qed.

Lemma some_lower_false (s : string) (phrases : list string) :
  ~ containsAny s phrases ->
  some phrases (fun w => includes (toLowerCase s) w) = false.
Proof.
  intros H. apply not_true_is_false. intros E. now apply H, some_lower_spec.
Qed.

(** C2: the phrase sets are tried in the order low, high, moderate and
    the first that matches decides; a sentence matching none, an empty
    one and a missing one give unknown. *)
Theorem riskFromCombined_priority :
  (forall s, containsAny s lowPhrases -> riskFromCombined (Some s) = low)
  /\ (forall s, ~ containsAny s lowPhrases -> containsAny s highPhrases ->
        riskFromCombined (Some s) = high)
  /\ (forall s, ~ containsAny s lowPhrases -> ~ containsAny s highPhrases ->
        containsAny s midPhrases -> riskFromCombined (Some s) = moderate)
  /\ (forall s, ~ containsAny s lowPhrases -> ~ containsAny s highPhrases ->
        ~ containsAny s midPhrases -> riskFromCombined (Some s) = unknown)
  /\ riskFromCombined None = unknown
  /\ riskFromCombined (Some "") = unknown
  /\ riskFromCombined (Some "Low risk, no PCOS detected") = low
  /\ riskFromCombined (Some "High risk: PCOS detected") = high.
Proof.
  repeat split; try reflexivity; intros s; rewrite riskFromCombined_eq.
  - intros H. apply some_lower_spec in H. now rewrite H.
  - intros Hl Hh. rewrite (some_lower_false _ _ Hl).
    apply some_lower_spec in Hh. now rewrite Hh.
  - intros Hl Hh Hm. rewrite (some_lower_false _ _ Hl), (some_lower_false _ _ Hh).
    apply some_lower_spec in Hm. now rewrite Hm.
  - intros Hl Hh Hm.
    now rewrite (some_lower_false _ _ Hl), (some_lower_false _ _ Hh),
      (some_lower_false _ _ Hm).
Qed.

Ltac phrase_absent :=
  let H := fresh in
  intros H; apply some_lower_spec in H; vm_compute in H; discriminate H.

Ltac phrase_present := apply some_lower_spec; reflexivity.

Lemma riskFromCombined_priority_witness :
  riskFromCombined (Some "not low risk, high risk confirmed") = low
  /\ riskFromCombined (Some "Likely PCOS; possible cysts") = high
  /\ riskFromCombined (Some "Findings MAY SUGGEST follow-up") = moderate
  /\ riskFromCombined (Some "all clear") = unknown.
Proof.
  destruct riskFromCombined_priority as (Hlow & Hhigh & Hmid & Hnone & _).
  split; [|split; [|split]].
  - apply Hlow. phrase_present.
  - apply Hhigh; [phrase_absent | phrase_present].
  - apply Hmid; [phrase_absent | phrase_absent | phrase_present].
  - apply Hnone; phrase_absent.
Defined.

(** ** hasWord *)

(** C6: hasWord holds exactly when the word occurs in the haystack, up
    to case, with a word boundary on each side; healthy is not found in
    unhealthy and is found in Healthy patient. *)
Theorem hasWord_whole_token :
  hasWord "unhealthy" "healthy" = Ok false
  /\ hasWord "Healthy patient" "healthy" = Ok true
  /\ forall haystack word,
       hasWord haystack word = Ok true <-> occursAsWord haystack word.
Proof.
  split; [reflexivity|]. split; [reflexivity|].
  intros haystack word. rewrite hasWord_eq, <- wholeWordMatch_spec.
  split; intros H; [now injection H | now rewrite H].
Qed.

(** ** summarizeSingle *)

Lemma summarizeSingle_label (c : ascii) (l : string) :
  summarizeSingle (Some (String c l)) None = Ok (classifyLabel (String c l)).
Proof.
  unfold summarizeSingle, classifyLabel. cbn [truthy negb].
  rewrite someR_hasWord. cbn [bind existsb].
  set (p := trim (toLowerCase (String c l))).
  destruct (p =? "non_pcos"), (p =? "non-pcos"), (p =? "unhealthy"), (p =? "pcos"),
    (p =? "positive"), (p =? "pcos_positive"); cbn [orb];
    try reflexivity; destruct (existsb _ _); reflexivity.
Qed.

Lemma summarizeSingle_unknown (prediction : option string) :
  summarizeSingle prediction (Some unknown) = summarizeSingle prediction None.
Proof. reflexivity. Qed.

(** The sample calls of the specification. *)
Example summarizeSingle_non_pcos :
  summarizeSingle (Some "non_pcos") None = Ok Normal.
Proof. reflexivity. Qed.

Example summarizeSingle_unhealthy :
  summarizeSingle (Some "unhealthy") None = Ok ReviewNeeded.
Proof. reflexivity. Qed.

Example summarizeSingle_absent :
  summarizeSingle None None = Ok NoData.
Proof. reflexivity. Qed.

Example summarizeSingle_random_sentence :
  summarizeSingle (Some "some random sentence") None = Ok ReviewNeeded.
Proof. reflexivity. Qed.

Example summarizeSingle_sentence_with_normal_word :
  summarizeSingle (Some "  Ovaries appear NORMAL. ") None = Ok Normal.
Proof. reflexivity. Qed.

(** C1, as the specification words it, fails on the empty label: it is a
    supplied label that equals no token and holds no normal word, so the
    stated order ends in Review Needed, and the code returns No data. *)
Lemma summarizeSingle_empty_label_counterexample :
  summarizeSingle (Some "") None <> Ok (specifiedSummary (Some "") None).
Proof. vm_compute. discriminate. Qed.

(** C1, amended: summarizeSingle follows the five-step decision order,
    where step 2 (No data) applies when no label is supplied or the
    label is the empty string; in step 4 a normal word is found exactly
    when one of them occurs in the label as a whole word. *)
Theorem summarizeSingle_decision_order :
  (forall prediction explicitRisk,
     summarizeSingle prediction explicitRisk
     = Ok (amendedSummary prediction explicitRisk))
  /\ (forall p,
        existsb (wholeWordMatch p) normalWords = true
        <-> exists w, In w normalWords /\ occursAsWord p w).
Proof.
  split.
  - intros prediction explicitRisk.
    destruct explicitRisk as [[]|]; try reflexivity;
      rewrite ?summarizeSingle_unknown;
      (destruct prediction as [[|c l]|]; [reflexivity | | reflexivity]);
      apply summarizeSingle_label.
  - intros p. rewrite existsb_exists.
    split; intros (w & Hin & H); exists w; split; trivial;
      now apply wholeWordMatch_spec.
Qed.

(** C10: without an explicit risk (absent or unknown) the empty label is
    treated like an absent one (No data), and a non-empty label made of
    white space only gives Review Needed. *)
Theorem summarizeSingle_empty_vs_blank
    (explicitRisk : option RiskLevel) (label : string)
    (Hrisk : explicitRisk = None \/ explicitRisk = Some unknown)
    (Hnonempty : label <> "")
    (Hblank : isBlank label = true) :
  summarizeSingle (Some "") explicitRisk = summarizeSingle None explicitRisk
  /\ summarizeSingle (Some "") explicitRisk = Ok NoData
  /\ summarizeSingle (Some label) explicitRisk = Ok ReviewNeeded.
Proof.
  assert (Hr : summarizeSingle (Some label) explicitRisk = summarizeSingle (Some label) None
               /\ summarizeSingle (Some "") explicitRisk = summarizeSingle (Some "") None
               /\ summarizeSingle None explicitRisk = summarizeSingle None None)
    by (destruct Hrisk as [-> | ->]; auto).
  destruct Hr as (-> & -> & ->).
  split; [reflexivity|]. split; [reflexivity|].
  destruct label as [|c l]; [congruence|].
  rewrite summarizeSingle_label. unfold classifyLabel.
  rewrite (trim_lower_blank _ Hblank). reflexivity.
Qed.

Lemma summarizeSingle_empty_vs_blank_witness :
  summarizeSingle (Some "") None = summarizeSingle None None
  /\ summarizeSingle (Some "") None = Ok NoData
  /\ summarizeSingle (Some " ") None = Ok ReviewNeeded.
Proof.
  apply (summarizeSingle_empty_vs_blank None " ").
  - left; reflexivity.
  - discriminate.
  - reflexivity.
Defined.

(** ** Overall risk *)

(** C3: the overall risk is the normalized overall_risk field when that
    is not unknown, and the risk read from the combined sentence
    otherwise, in particular when the field is absent. *)
Theorem overallRisk_two_tier (results : PredictionPayload) :
  (normalizeRisk (overall_risk results) <> unknown ->
     overallRisk results = normalizeRisk (overall_risk results))
  /\ (normalizeRisk (overall_risk results) = unknown ->
        overallRisk results = riskFromCombined (combined results))
  /\ (overall_risk results = JsUndefined ->
        overallRisk results = riskFromCombined (combined results)).
Proof.
  unfold overallRisk. repeat split.
  - intros H. destruct (normalizeRisk (overall_risk results)); try reflexivity.
    now contradiction H.
  - intros ->. reflexivity.
  - intros ->. reflexivity.
Qed.

Lemma overallRisk_two_tier_witness :
  overallRisk (mkPayload (Some "Low risk, no PCOS detected") None None
                 (JsStr " HIGH ") JsUndefined JsUndefined) = high
  /\ overallRisk (mkPayload (Some "Low risk, no PCOS detected") None None
                    (JsStr "n/a") JsUndefined JsUndefined) = low
  /\ overallRisk (mkPayload (Some "High risk: PCOS detected") None None
                    JsUndefined JsUndefined JsUndefined) = high.
Proof.
  split; [|split].
  - destruct (overallRisk_two_tier
                (mkPayload (Some "Low risk, no PCOS detected") None None
                   (JsStr " HIGH ") JsUndefined JsUndefined)) as (Hexplicit & _).
    apply Hexplicit. discriminate.
  - destruct (overallRisk_two_tier
                (mkPayload (Some "Low risk, no PCOS detected") None None
                   (JsStr "n/a") JsUndefined JsUndefined)) as (_ & Hfallback & _).
    apply Hfallback. reflexivity.
  - destruct (overallRisk_two_tier
                (mkPayload (Some "High risk: PCOS detected") None None
                   JsUndefined JsUndefined JsUndefined)) as (_ & _ & Habsent).
    apply Habsent. reflexivity.
Defined.

(** C4: an explicit risk of low, moderate or high alone decides the
    result of summarizeSingle, whatever the label (low gives Normal), and
    a normalized overall_risk other than unknown decides the overall
    risk, whatever the combined sentence. *)
Theorem explicit_risk_precedence (r : RiskLevel) (Hr : In r [low; moderate; high]) :
  (forall label1 label2,
     summarizeSingle label1 (Some r) = summarizeSingle label2 (Some r))
  /\ (forall label,
        summarizeSingle label (Some r)
        = Ok (if RiskLevel_eqb r low then Normal else ReviewNeeded))
  /\ (forall label, summarizeSingle label (Some low) = Ok Normal)
  /\ (forall c1 c2 fp xp o fr xr,
        normalizeRisk o = r ->
        overallRisk (mkPayload c1 fp xp o fr xr) = r
        /\ overallRisk (mkPayload c1 fp xp o fr xr)
           = overallRisk (mkPayload c2 fp xp o fr xr)).
Proof.
  assert (Hn : r <> unknown)
    by (destruct Hr as [<- | [<- | [<- | []]]]; discriminate).
  repeat split.
  - destruct r; try reflexivity. now contradiction Hn.
  - destruct r; try reflexivity. now contradiction Hn.
  - unfold overallRisk. cbn [overall_risk]. rewrite H.
    destruct r; try reflexivity. now contradiction Hn.
  - unfold overallRisk. cbn [overall_risk]. rewrite H.
    destruct r; try reflexivity. now contradiction Hn.
Qed.

Lemma explicit_risk_precedence_witness :
  summarizeSingle (Some "anything") (Some low) = Ok Normal
  /\ overallRisk (mkPayload (Some "High risk: PCOS detected") None None
                    (JsStr " Low ") JsUndefined JsUndefined) = low.
Proof.
  pose proof (explicit_risk_precedence low (or_introl eq_refl)) as (_ & _ & H3 & H4).
  split.
  - apply H3.
  - apply (H4 (Some "High risk: PCOS detected") None None None
              (JsStr " Low ") JsUndefined JsUndefined).
    reflexivity.
Defined.

(** ** Totality *)

(** C7: hasWord returns a boolean for every haystack and word, the
    escaped word being accepted as a pattern of literals between two
    word boundaries; riskFromCombined gives unknown for a missing or
    empty sentence; summarizeSingle returns a summary on every input. *)
Theorem classification_total :
  (forall haystack word, exists b, hasWord haystack word = Ok b)
  /\ (forall word,
        RegExp.construct ("\b" ++ escapeRegExp word ++ "\b") "i"
        = Ok (RegExp.mk (wordPattern word) true))
  /\ riskFromCombined None = unknown
  /\ riskFromCombined (Some "") = unknown
  /\ (forall prediction explicitRisk,
        exists s, summarizeSingle prediction explicitRisk = Ok s).
Proof.
  split; [|split; [|split; [|split]]]; try reflexivity.
  - intros haystack word. exists (wholeWordMatch haystack word). apply hasWord_eq.
  - apply construct_wordPattern.
  - intros prediction explicitRisk.
    destruct explicitRisk as [[]|]; try (eexists; reflexivity);
      rewrite ?summarizeSingle_unknown;
      (destruct prediction as [[|c l]|]; try (eexists; reflexivity));
      eexists; apply summarizeSingle_label.
Qed.

(** ** riskExplanation *)

(** C9: riskExplanation gives a non-empty text for each of the four risk
    levels, the four texts are pairwise distinct, and the text of
    unknown is the inconclusive, additional-testing one. *)
Theorem riskExplanation_lookup :
  (forall r, truthy (riskExplanation r) = true)
  /\ NoDup (map riskExplanation [low; moderate; high; unknown])
  /\ riskExplanation unknown
     = "The analysis results are inconclusive. Additional testing or consultation may be needed for proper evaluation."
  /\ includes (toLowerCase (riskExplanation unknown)) "inconclusive" = true
  /\ includes (toLowerCase (riskExplanation unknown)) "additional testing" = true.
Proof.
  split; [intros []; reflexivity|].
  split; [|repeat split; reflexivity].
  cbn [map]. repeat constructor; cbn [In]; intuition discriminate.
Qed.

(** * Further properties of the classifier *)

(** ** Case and white space *)

Section CaseAndSpace.

Ltac by_code_unit c :=
  destruct c as [[] [] [] [] [] [] [] []]; vm_compute; reflexivity.

Lemma toLowerChar_idem (c : ascii) : toLowerChar (toLowerChar c) = toLowerChar c.
Proof. by_code_unit c. Qed.

Lemma isWhiteSpace_lower (c : ascii) : isWhiteSpace (toLowerChar c) = isWhiteSpace c.
Proof. by_code_unit c. Qed.

Lemma isWordCharacter_lower (c : ascii) :
  RegExp.isWordCharacter (toLowerChar c) = RegExp.isWordCharacter c.
Proof. by_code_unit c. Qed.

Lemma canonicalize_lower (c : ascii) :
  RegExp.canonicalize true (toLowerChar c) = RegExp.canonicalize true c.
Proof. by_code_unit c. Qed.

Lemma lowerOfCanonical_spec (c : ascii) :
  lowerOfCanonical (RegExp.canonicalize true c) = toLowerChar c.
Proof. by_code_unit c. Qed.

Lemma canonical_eq_lower (x y : ascii) :
  RegExp.canonicalize true x = RegExp.canonicalize true y ->
  toLowerChar x = toLowerChar y.
Proof.
  intros H. rewrite <- (lowerOfCanonical_spec x), <- (lowerOfCanonical_spec y).
  now rewrite H.
Qed.

Lemma toLowerCase_idem (s : string) : toLowerCase (toLowerCase s) = toLowerCase s.
Proof.
  induction s as [|c s IH]; simpl; [reflexivity|].
  now rewrite toLowerChar_idem, IH.
Qed.

Lemma trimStart_lower (s : string) :
  trimStart (toLowerCase s) = toLowerCase (trimStart s).
Proof.
  induction s as [|c s IH]; simpl; [reflexivity|].
  rewrite isWhiteSpace_lower. destruct (isWhiteSpace c); [exact IH | reflexivity].
Qed.

Lemma trimEnd_lower (s : string) :
  trimEnd (toLowerCase s) = toLowerCase (trimEnd s).
Proof.
  induction s as [|c s IH]; simpl; [reflexivity|].
  rewrite IH, isWhiteSpace_lower.
  destruct (trimEnd s); simpl; [destruct (isWhiteSpace c)|]; reflexivity.
Qed.

Lemma trim_lower (s : string) : trim (toLowerCase s) = toLowerCase (trim s).
Proof. unfold trim. now rewrite trimStart_lower, trimEnd_lower. Qed.

Lemma trimEnd_blank (pad : string) : isBlank pad = true -> trimEnd pad = "".
Proof.
  unfold isBlank. induction pad as [|c pad IH]; simpl; [reflexivity|].
  rewrite andb_true_iff. intros [Hc Hp]. now rewrite (IH Hp), Hc.
Qed.

Lemma trimEnd_app_blank (s pad : string) :
  isBlank pad = true -> trimEnd (s ++ pad) = trimEnd s.
Proof.
  intros Hp. induction s as [|c s IH]; simpl; [now apply trimEnd_blank|].
  now rewrite IH.
Qed.

Lemma trimStart_blank_app (pad s : string) :
  isBlank pad = true -> trimStart (pad ++ s) = trimStart s.
Proof.
  unfold isBlank. induction pad as [|c pad IH]; simpl; [reflexivity|].
  rewrite andb_true_iff. intros [Hc Hp]. rewrite Hc. now apply IH.
Qed.

(** Trailing white space does not survive [trimStart] followed by
    [trimEnd], whether or not the text before it is blank. *)
Lemma trim_app_blank (s pad : string) :
  isBlank pad = true -> trim (s ++ pad) = trim s.
Proof.
  intros Hp. unfold trim. induction s as [|c s IH]; simpl.
  - pose proof (trimStart_blank_app pad "" Hp) as H.
    rewrite append_empty_r in H. now rewrite H.
  - destruct (isWhiteSpace c); [exact IH|].
    change (String c (s ++ pad)) with (String c s ++ pad).
    now apply trimEnd_app_blank.
Qed.

Lemma trim_padding (pad1 s pad2 : string) :
  isBlank pad1 = true -> isBlank pad2 = true -> trim (pad1 ++ s ++ pad2) = trim s.
Proof.
  intros H1 H2. rewrite <- append_assoc, (trim_app_blank _ _ H2).
  unfold trim. now rewrite (trimStart_blank_app _ _ H1).
Qed.

(** What [trim] keeps is a contiguous run of its argument. *)
Lemma trimStart_run (s : string) : exists a, s = a ++ trimStart s.
Proof.
  induction s as [|c s [a IH]]; simpl; [now exists ""|].
  destruct (isWhiteSpace c).
  - exists (String c a). simpl. now rewrite <- IH.
  - now exists "".
Qed.

Lemma trimEnd_run (s : string) : exists b, s = trimEnd s ++ b.
Proof.
  induction s as [|c s [b IH]]; simpl; [now exists ""|].
  destruct (trimEnd s) eqn:E.
  - destruct (isWhiteSpace c).
    + now exists (String c s).
    + exists b. simpl. simpl in IH. now rewrite <- IH.
  - exists b. simpl in *. now rewrite <- IH.
Qed.

Lemma trim_run (s : string) : exists a b, s = a ++ trim s ++ b.
Proof.
  destruct (trimStart_run s) as [a Ha].
  destruct (trimEnd_run (trimStart s)) as [b Hb].
  exists a, b. unfold trim. now rewrite <- Hb.
Qed.

Lemma orEmpty_str (s : string) : orEmpty (JsStr s) = s.
Proof. now destruct s. Qed.

End CaseAndSpace.

(** ** normalizeRisk, further *)

(** X1: normalizeRisk reads back the string of every risk level: the
    four level strings are fixed points of the normalization. *)
Theorem normalizeRisk_roundtrip (r : RiskLevel) :
  normalizeRisk (JsStr (RiskLevel_str r)) = r.
Proof. destruct r; reflexivity. Qed.

(** X2: normalizeRisk ignores letter case and white space around the
    value: two strings with the same lower case normalize alike, also
    when one of them is padded with white space. *)
Theorem normalizeRisk_ignores_case_and_padding
    (pad1 s pad2 s' : string)
    (Hpad1 : isBlank pad1 = true) (Hpad2 : isBlank pad2 = true)
    (Hcase : toLowerCase s = toLowerCase s') :
  normalizeRisk (JsStr (pad1 ++ s ++ pad2)) = normalizeRisk (JsStr s').
Proof.
  unfold normalizeRisk. rewrite !orEmpty_str, (trim_padding _ _ _ Hpad1 Hpad2).
  now rewrite <- !trim_lower, Hcase.
Qed.

Lemma normalizeRisk_ignores_case_and_padding_witness :
  normalizeRisk (JsStr ("  " ++ "High" ++ " ")) = normalizeRisk (JsStr "hIGH").
Proof.
  apply (normalizeRisk_ignores_case_and_padding "  " "High" " " "hIGH");
    reflexivity.
Defined.

(** ** riskFromCombined, further *)

Lemma containsAny_context (a s b : string) (phrases : list string) :
  containsAny s phrases -> containsAny (a ++ s ++ b) phrases.
Proof.
  intros (w & Hin & pre & mid & post & -> & Hmid).
  exists w. split; [exact Hin|].
  exists (a ++ pre), mid, (post ++ b). split; [|exact Hmid].
  now rewrite !append_assoc.
Qed.

Lemma some_lower_context (a s b : string) (phrases : list string) :
  some phrases (fun w => includes (toLowerCase s) w) = true ->
  some phrases (fun w => includes (toLowerCase (a ++ s ++ b)) w) = true.
Proof.
  intros H. apply some_lower_spec, containsAny_context. now apply some_lower_spec.
Qed.

(** X3: putting a sentence inside a longer text never lowers its place
    in the order unknown, moderate, high, low: a rated sentence stays
    rated, and a low one stays low whatever is written around it. *)
Theorem riskFromCombined_context_monotone (a s b : string) :
  priority (riskFromCombined (Some s))
  <= priority (riskFromCombined (Some (a ++ s ++ b))).
Proof.
  rewrite !riskFromCombined_eq.
  pose proof (some_lower_context a s b lowPhrases) as Hl.
  pose proof (some_lower_context a s b highPhrases) as Hh.
  pose proof (some_lower_context a s b midPhrases) as Hm.
  destruct (some lowPhrases (fun w => includes (toLowerCase s) w)),
    (some lowPhrases (fun w => includes (toLowerCase (a ++ s ++ b)) w)),
    (some highPhrases (fun w => includes (toLowerCase s) w)),
    (some highPhrases (fun w => includes (toLowerCase (a ++ s ++ b)) w)),
    (some midPhrases (fun w => includes (toLowerCase s) w)),
    (some midPhrases (fun w => includes (toLowerCase (a ++ s ++ b)) w));
    cbn; try lia;
    first [ discriminate (Hl eq_refl) | discriminate (Hh eq_refl)
          | discriminate (Hm eq_refl) ].
Qed.

(** ** hasWord, further *)

Section WordMatching.

Import RegExp.

Lemma hasWordCharacter_empty : ~ hasWordCharacter "".
Proof. intros (pre & c & post & H & _). destruct pre; discriminate. Qed.

Lemma hasWordCharacter_cons (d : ascii) (h : string) :
  hasWordCharacter (String d h) <-> isWordCharacter d = true \/ hasWordCharacter h.
Proof.
  split.
  - intros (pre & c & post & H & Hc). destruct pre as [|x pre]; simpl in H.
    + injection H as -> ->. now left.
    + injection H as -> ->. right. now exists pre, c, post.
  - intros [Hd | (pre & c & post & -> & Hc)].
    + now exists "", d, h.
    + now exists (String d pre), c, post.
Qed.

(** Two adjacent word boundaries are found exactly when the text before
    ends in a word character or the input holds one. *)
Lemma search_boundaries (prev : option ascii) (h : string) :
  search true [WordBoundary; WordBoundary] prev h = true <->
  wordBefore prev = true \/ hasWordCharacter h.
Proof.
  revert prev. induction h as [|d h IH]; intros prev.
  - cbn. rewrite !xorb_false_r, !andb_true_r, orb_false_r, andb_diag. split.
    + now left.
    + intros [H | H]; [exact H | now apply hasWordCharacter_empty in H].
  - cbn [search matchTerms wordAt]. rewrite orb_true_iff, IH, hasWordCharacter_cons.
    cbn [wordBefore]. rewrite andb_true_r, andb_diag.
    destruct (wordBefore prev), (isWordCharacter d); cbn; intuition discriminate.
Qed.

Lemma equalIgnoringCase_lower (mid w : string) :
  equalIgnoringCase mid w = true -> toLowerCase mid = toLowerCase w.
Proof.
  revert w. induction mid as [|x mid IH]; intros [|y w]; simpl;
    try discriminate; [reflexivity|].
  rewrite andb_true_iff, N.eqb_eq. intros [Hc He].
  now rewrite (canonical_eq_lower _ _ Hc), (IH _ He).
Qed.

Lemma occursAsWord_includes (h w : string) :
  occursAsWord h w -> includes (toLowerCase h) (toLowerCase w) = true.
Proof.
  intros (pre & mid & post & -> & He & _).
  apply includes_spec. exists (toLowerCase pre), (toLowerCase post).
  now rewrite !toLowerCase_app, (equalIgnoringCase_lower _ _ He).
Qed.

Lemma matchTerms_lower (ts : list Term) (prev : option ascii) (s : string) :
  matchTerms true (map lowerTerm ts) (option_map toLowerChar prev) (toLowerCase s)
  = matchTerms true ts prev s.
Proof.
  revert prev s. induction ts as [|t ts IH]; intros prev s; [reflexivity|].
  destruct t as [c|]; cbn [map lowerTerm matchTerms].
  - destruct s as [|d s]; [reflexivity|]. cbn [toLowerCase].
    rewrite !canonicalize_lower. f_equal. apply (IH (Some d)).
  - rewrite IH. f_equal. f_equal.
    + destruct prev; [apply isWordCharacter_lower | reflexivity].
    + destruct s; [reflexivity | apply isWordCharacter_lower].
Qed.

Lemma search_lower (ts : list Term) (prev : option ascii) (s : string) :
  search true (map lowerTerm ts) (option_map toLowerChar prev) (toLowerCase s)
  = search true ts prev s.
Proof.
  revert prev. induction s as [|d s IH]; intros prev; cbn [search toLowerCase].
  - now rewrite <- (matchTerms_lower ts prev "").
  - rewrite <- (matchTerms_lower ts prev (String d s)). f_equal. apply (IH (Some d)).
Qed.

Lemma wordPattern_lower (w : string) :
  wordPattern (toLowerCase w) = map lowerTerm (wordPattern w).
Proof.
  unfold wordPattern, literal. cbn [map]. f_equal. rewrite map_app. cbn [map].
  f_equal. induction w as [|c w IH]; [reflexivity|]. simpl. now rewrite IH.
Qed.

End WordMatching.

(** X4: in an empty haystack hasWord finds no word, not even the empty
    one: there is no word boundary in an empty input. *)
Theorem hasWord_empty_haystack (word : string) : hasWord "" word = Ok false.
Proof. rewrite hasWord_eq. reflexivity. Qed.

(** X5: the empty word is found (as a bare word boundary) exactly in the
    haystacks that hold at least one word character. *)
Theorem hasWord_empty_word (haystack : string) :
  hasWord haystack "" = Ok true <-> hasWordCharacter haystack.
Proof.
  rewrite hasWord_eq. unfold wholeWordMatch, RegExp.test. cbn.
  pose proof (search_boundaries None haystack) as H. cbn in H.
  split.
  - intros E. injection E as E. apply H in E as [E | E]; [discriminate | exact E].
  - intros E. f_equal. apply H. now right.
Qed.




(** ** summarizeSingle, further *)

Lemma normalWord_found (p : string) :
  existsb (wholeWordMatch p) normalWords = true
  <-> exists w, In w normalWords /\ occursAsWord p w.
Proof.
  rewrite existsb_exists.
  split; intros (w & Hin & H); exists w; split; trivial;
    now apply wholeWordMatch_spec.
Qed.

(** None of the exact abnormal labels holds a normal word, and the
    exact label non-pcos holds one: only non_pcos is decided by the
    exact comparison alone. *)
Lemma classifyLabel_normal_iff (label : string) :
  classifyLabel label = Normal
  <-> trim (toLowerCase label) = "non_pcos"
      \/ existsb (wholeWordMatch (trim (toLowerCase label))) normalWords = true.
Proof.
  unfold classifyLabel. generalize (trim (toLowerCase label)) as p. intros p.
  cbn [existsb].
  destruct (String.eqb_spec p "non_pcos") as [-> | Hn]; [cbn; tauto|].
  destruct (String.eqb_spec p "non-pcos") as [-> | _]; [cbn; tauto|].
  destruct (String.eqb_spec p "unhealthy") as [-> | _];
    [cbn; split; [discriminate | intros [H | H]; discriminate] |].
  destruct (String.eqb_spec p "pcos") as [-> | _];
    [cbn; split; [discriminate | intros [H | H]; discriminate] |].
  destruct (String.eqb_spec p "positive") as [-> | _];
    [cbn; split; [discriminate | intros [H | H]; discriminate] |].
  destruct (String.eqb_spec p "pcos_positive") as [-> | _];
    [cbn; split; [discriminate | intros [H | H]; discriminate] |].
  cbn [orb].
  destruct (existsb (wholeWordMatch p) normalWords); split;
    try tauto; try discriminate.
  intros [H | H]; [contradiction | discriminate].
Qed.

Lemma summarizeSingle_text (prediction : option string) :
  summarizeSingle prediction None
  = Ok (match prediction with
        | None => NoData
        | Some label => if truthy label then classifyLabel label else NoData
        end).
Proof.
  destruct prediction as [[|c l]|]; try reflexivity. apply summarizeSingle_label.
Qed.

Lemma classifyLabel_values (label : string) :
  classifyLabel label = Normal \/ classifyLabel label = ReviewNeeded.
Proof.
  unfold classifyLabel.
  repeat match goal with |- context [if ?b then _ else _] => destruct b end; auto.
Qed.

(** X8: summarizeSingle returns one of three summaries, Normal, Review
    Needed and No data (so the status is normal exactly when the text is
    Normal), and No data exactly when there is no explicit risk (absent
    or unknown) and the label is absent or empty. *)
Theorem summarizeSingle_values
    (prediction : option string) (explicitRisk : option RiskLevel) :
  exists s,
    summarizeSingle prediction explicitRisk = Ok s
    /\ In s [Normal; ReviewNeeded; NoData]
    /\ (s = NoData <->
        (explicitRisk = None \/ explicitRisk = Some unknown)
        /\ (prediction = None \/ prediction = Some "")).
Proof.
  assert (Hbase : forall s, summarizeSingle prediction None = Ok s ->
            In s [Normal; ReviewNeeded; NoData]
            /\ (s = NoData <-> prediction = None \/ prediction = Some "")).
  { intros s. rewrite summarizeSingle_text. intros E. injection E as <-.
    destruct prediction as [[|c l]|]; cbn [truthy].
    - split; [cbn; auto | split; auto].
    - destruct (classifyLabel_values (String c l)) as [-> | ->];
        (split; [cbn; auto|]); split; try discriminate;
        intros [H | H]; discriminate H.
    - split; [cbn; auto | split; auto]. }
  destruct explicitRisk as [[]|].
  - exists Normal. split; [reflexivity|]. split; [cbn; auto|].
    split; [discriminate | intros [[H | H] _]; discriminate H].
  - exists ReviewNeeded. split; [reflexivity|]. split; [cbn; auto|].
    split; [discriminate | intros [[H | H] _]; discriminate H].
  - exists ReviewNeeded. split; [reflexivity|]. split; [cbn; auto|].
    split; [discriminate | intros [[H | H] _]; discriminate H].
  - rewrite summarizeSingle_unknown.
    destruct (summarizeSingle prediction None) as [s|e] eqn:E;
      [|rewrite summarizeSingle_text in E; discriminate E].
    exists s. destruct (Hbase s eq_refl) as [Hin Hiff].
    split; [reflexivity|]. split; [exact Hin|]. rewrite Hiff. tauto.
  - destruct (summarizeSingle prediction None) as [s|e] eqn:E;
      [|rewrite summarizeSingle_text in E; discriminate E].
    exists s. destruct (Hbase s eq_refl) as [Hin Hiff].
    split; [reflexivity|]. split; [exact Hin|]. rewrite Hiff. tauto.
Qed.

(** X9: without an explicit risk, a non-empty label is summarized as
    Normal exactly when, lower-cased and trimmed, it is the label
    non_pcos or holds one of the normal words as a whole word; the exact
    comparison with the four abnormal labels never changes the result. *)
Theorem summarizeSingle_normal_iff (label : string) (Hlabel : label <> "") :
  summarizeSingle (Some label) None = Ok Normal
  <-> trim (toLowerCase label) = "non_pcos"
      \/ exists w, In w normalWords /\ occursAsWord (trim (toLowerCase label)) w.
Proof.
  rewrite summarizeSingle_text. destruct label as [|c l]; [congruence|].
  cbn [truthy]. rewrite <- normalWord_found, <- classifyLabel_normal_iff.
  split; intros H; [now injection H | now rewrite H].
Qed.

Lemma summarizeSingle_normal_iff_witness :
  summarizeSingle (Some " NON_PCOS ") None = Ok Normal.
Proof.
  apply (summarizeSingle_normal_iff " NON_PCOS ").
  - discriminate.
  - left. reflexivity.
Defined.

(** X10: the two classifiers agree on the phrases they share: a label
    that summarizeSingle finds Normal is rated low by riskFromCombined,
    unless it is the label non_pcos or owes its summary to the words
    normal or healthy, which riskFromCombined does not know. *)
Theorem summarizeSingle_normal_then_low (label : string)
    (H : summarizeSingle (Some label) None = Ok Normal) :
  riskFromCombined (Some label) = low
  \/ trim (toLowerCase label) = "non_pcos"
  \/ occursAsWord (trim (toLowerCase label)) "normal"
  \/ occursAsWord (trim (toLowerCase label)) "healthy".
Proof.
  rewrite summarizeSingle_text in H. destruct label as [|c l]; [discriminate H|].
  cbn [truthy] in H. injection H as H.
  apply classifyLabel_normal_iff in H as [H | H]; [auto|].
  apply normalWord_found in H as (w & Hin & Hw).
  assert (Hshared : In w sharedPhrases -> riskFromCombined (Some (String c l)) = low).
  { intros Hs. rewrite riskFromCombined_eq.
    assert (E : some lowPhrases
                  (fun w => includes (toLowerCase (String c l)) w) = true).
    { unfold some. apply existsb_exists. exists w. split.
      - cbn in Hs |- *. intuition.
      - apply occursAsWord_includes in Hw.
        rewrite trim_lower, toLowerCase_idem, <- trim_lower in Hw.
        assert (Hlow : toLowerCase w = w)
          by (cbn in Hs; intuition; subst w; reflexivity).
        rewrite Hlow in Hw. apply includes_spec in Hw as (a & b & Hw).
        destruct (trim_run (toLowerCase (String c l))) as (a' & b' & Hrun).
        apply includes_spec. exists (a' ++ a), (b ++ b').
        rewrite Hrun at 1. rewrite Hw. now rewrite !append_assoc. }
    now rewrite E. }
  cbn in Hin. destruct Hin as [<- | [<- | [<- | [<- | [<- | [<- | []]]]]]];
    auto; left; apply Hshared; cbn; auto.
Qed.

Lemma summarizeSingle_normal_then_low_witness :
  riskFromCombined (Some "Scan NEGATIVE for cysts") = low
  \/ trim (toLowerCase "Scan NEGATIVE for cysts") = "non_pcos"
  \/ occursAsWord (trim (toLowerCase "Scan NEGATIVE for cysts")) "normal"
  \/ occursAsWord (trim (toLowerCase "Scan NEGATIVE for cysts")) "healthy".
Proof.
  apply (summarizeSingle_normal_then_low "Scan NEGATIVE for cysts"). reflexivity.
Defined.

(** * The rendered report *)

Section Report.

Import ResultsView.

Lemma summarizeSingle_explicit (pred : option string) (risk : RiskLevel) :
  summarizeSingle pred (Some risk)
  = Ok (match risk with
        | low => Normal
        | moderate | high => ReviewNeeded
        | unknown =>
            match pred with
            | None => NoData
            | Some label => if truthy label then classifyLabel label else NoData
            end
        end).
Proof.
  destruct risk; try reflexivity.
  rewrite summarizeSingle_unknown. apply summarizeSingle_text.
Qed.

Lemma rendered_modality (caption title : string) (pred : option string)
      (risk : RiskLevel) :
  exists s,
    summarizeSingle pred (Some risk) = Ok s
    /\ rendered caption title pred (chipOf caption pred s) (cardOf title pred s).
Proof.
  rewrite summarizeSingle_explicit. eexists. split; [reflexivity|].
  destruct pred as [[|c l]|]; cbn [rendered chipOf cardOf truthy]; auto.
  destruct risk; cbn; auto;
    destruct (classifyLabel_values (String c l)) as [-> | ->]; cbn; auto.
Qed.

Lemma ResultsPage_report (results : PredictionPayload) :
  exists face xray,
    faceSummary results = Ok face /\ xraySummary results = Ok xray
    /\ ResultsPage (Some results)
       = Ok (ReportPage
               (mkReport (badgeToneOf (overallRisk results))
                  (badgeTextOf (overallRisk results))
                  (combinedTextOf (combined results))
                  (riskExplanation (overallRisk results))
                  (chipOf "Facial Analysis:" (face_pred results) face)
                  (chipOf "Imaging Analysis:" (xray_pred results) xray)
                  (overallRisk results)
                  (cardOf "Facial Analysis" (face_pred results) face)
                  (cardOf "X-ray Analysis" (xray_pred results) xray))).
Proof.
  unfold ResultsPage, faceSummary, xraySummary.
  rewrite !summarizeSingle_explicit. do 2 eexists. repeat split.
Qed.

End Report.


(** X12: an explicit face_risk of moderate or high is shown on the
    facial card as level moderate with the text Review Needed, whatever
    the label says; an explicit high is therefore displayed one level
    lower on the card. *)
Theorem report_explicit_face_risk
    (results : PredictionPayload) (label : string) (report : ResultsView.Report)
    (Hpage : ResultsView.ResultsPage (Some results)
             = Ok (ResultsView.ReportPage report))
    (Hpred : face_pred results = Some label) (Hlabel : label <> "")
    (Hrisk : In (normalizeRisk (face_risk results)) [moderate; high]) :
  ResultsView.faceCard report
  = Some (ResultsView.mkCard "Facial Analysis" label moderate)
  /\ ResultsView.faceChip report
     = Some (ResultsView.mkChip ResultsView.Amber ResultsView.AlertTriangle
               "Facial Analysis:" "Review Needed").
Proof.
  destruct (ResultsPage_report results) as (face & xray & Hf & Hx & E).
  rewrite E in Hpage. injection Hpage as <-.
  cbn [ResultsView.faceChip ResultsView.faceCard].
  unfold faceSummary in Hf. rewrite summarizeSingle_explicit in Hf.
  rewrite Hpred. destruct label as [|c l]; [congruence|].
  assert (Hface : face = ReviewNeeded).
  { destruct Hrisk as [Hr | [Hr | []]]; rewrite <- Hr in Hf; now injection Hf. }
  subst face. split; reflexivity.
Qed.

Lemma report_explicit_face_risk_witness :
  exists report,
    ResultsView.ResultsPage
      (Some (mkPayload None (Some "non_pcos") None JsUndefined (JsStr "HIGH") JsNull))
    = Ok (ResultsView.ReportPage report)
    /\ ResultsView.faceCard report
       = Some (ResultsView.mkCard "Facial Analysis" "non_pcos" moderate).
Proof.
  eexists. split; [reflexivity|].
  eapply (report_explicit_face_risk
            (mkPayload None (Some "non_pcos") None JsUndefined (JsStr "HIGH") JsNull)
            "non_pcos").
  - reflexivity.
  - reflexivity.
  - discriminate.
  - right. left. reflexivity.
Defined.

(** X13: the overall badge reads Pending Analysis exactly when the
    overall risk is unknown, and then it is amber and the explanation is
    the inconclusive one; a payload with neither a usable overall_risk
    nor a combined sentence shows Pending Analysis over the placeholder
    text Analysis in progress. *)
Theorem report_pending_badge (results : PredictionPayload) :
  exists report,
    ResultsView.ResultsPage (Some results) = Ok (ResultsView.ReportPage report)
    /\ ResultsView.gaugeRiskLevel report = overallRisk results
    /\ (ResultsView.badgeText report = "Pending Analysis"
        <-> overallRisk results = unknown)
    /\ (overallRisk results = unknown ->
        ResultsView.badgeTone report = ResultsView.Amber
        /\ ResultsView.explanation report = riskExplanation unknown)
    /\ (normalizeRisk (overall_risk results) = unknown ->
        combined results = None \/ combined results = Some "" ->
        ResultsView.badgeText report = "Pending Analysis"
        /\ ResultsView.combinedText report = "Analysis in progress...").
Proof.
  destruct (ResultsPage_report results) as (face & xray & _ & _ & ->).
  eexists. split; [reflexivity|].
  cbn [ResultsView.gaugeRiskLevel ResultsView.badgeText ResultsView.badgeTone
       ResultsView.explanation ResultsView.combinedText].
  split; [reflexivity|]. split; [|split].
  - destruct (overallRisk results); cbn; split; congruence.
  - intros ->. split; reflexivity.
  - intros Hn Hc. unfold overallRisk. rewrite Hn. cbn [RiskLevel_eqb negb].
    destruct Hc as [-> | ->]; split; reflexivity.
Qed.

Lemma report_pending_badge_witness :
  exists report,
    ResultsView.ResultsPage
      (Some (mkPayload (Some "") None None (JsStr "n/a") JsUndefined JsUndefined))
    = Ok (ResultsView.ReportPage report)
    /\ ResultsView.badgeText report = "Pending Analysis"
    /\ ResultsView.combinedText report = "Analysis in progress...".
Proof.
  destruct (report_pending_badge
              (mkPayload (Some "") None None (JsStr "n/a") JsUndefined JsUndefined))
    as (report & Hpage & _ & _ & _ & Hempty).
  exists report. split; [exact Hpage|].
  apply Hempty; [reflexivity | right; reflexivity].
Defined.

(** * The sample loader *)

Section RequestUrl.

Import SampleImages.

Lemma isExternalUrl_proxy (q : string) : isExternalUrl ("/img-proxy?url=" ++ q) = false.
Proof. reflexivity. Qed.

Lemma list_ascii_app (a b : string) :
  list_ascii_of_string (a ++ b) = (list_ascii_of_string a ++ list_ascii_of_string b)%list.
Proof. induction a as [|c a IH]; simpl; [reflexivity | now rewrite IH]. Qed.

Lemma length_app (a b : string) :
  String.length (a ++ b) = String.length a + String.length b.
Proof. induction a as [|c a IH]; simpl; [reflexivity | now rewrite IH]. Qed.

Lemma encodeChar_encoded (c : ascii) :
  forallb isEncoded (list_ascii_of_string (encodeChar c)) = true.
Proof. destruct c as [[] [] [] [] [] [] [] []]; vm_compute; reflexivity. Qed.

Lemma encodeChar_length (c : ascii) : 1 <= String.length (encodeChar c).
Proof. destruct c as [[] [] [] [] [] [] [] []]; vm_compute; lia. Qed.

Lemma decodeFirst_encodeChar (c : ascii) (rest : string) :
  Percent.decodeFirst (encodeChar c ++ rest) = Some (c, rest).
Proof. destruct c as [[] [] [] [] [] [] [] []]; reflexivity. Qed.

Lemma encodeURIComponent_length (s : string) :
  String.length s <= String.length (encodeURIComponent s).
Proof.
  induction s as [|c s IH]; simpl; [lia|].
  rewrite length_app. pose proof (encodeChar_length c). lia.
Qed.

Lemma decodeWith_encoded (s : string) (fuel : nat) :
  String.length s <= fuel ->
  Percent.decodeWith fuel (encodeURIComponent s) = Some s.
Proof.
  revert fuel. induction s as [|c s IH]; intros fuel Hf; [now destruct fuel|].
  destruct fuel as [|fuel]; [simpl in Hf; lia|].
  cbn [encodeURIComponent].
  assert (Hne : exists x t, encodeChar c ++ encodeURIComponent s = String x t).
  { pose proof (encodeChar_length c) as Hl.
    destruct (encodeChar c) as [|x t]; [simpl in Hl; lia | now exists x, (t ++ encodeURIComponent s)]. }
  destruct Hne as (x & t & E).
  pose proof (decodeFirst_encodeChar c (encodeURIComponent s)) as Hd.
  rewrite E in Hd |- *. cbn [Percent.decodeWith]. rewrite Hd.
  rewrite IH; [reflexivity | simpl in Hf; lia].
Qed.

Lemma decode_encoded (s : string) : Percent.decode (encodeURIComponent s) = Some s.
Proof. apply decodeWith_encoded, encodeURIComponent_length. Qed.

Lemma append_inj_l (a b c : string) : a ++ b = a ++ c -> b = c.
Proof. induction a as [|x a IH]; simpl; intros H; [exact H|]. injection H as H. auto. Qed.

End RequestUrl.

(** X14: encodeURIComponent yields only unreserved characters and
    percent signs, so the value put after url= holds no ampersand, hash,
    question mark, equals sign, slash, colon or white space. *)
Theorem encodeURIComponent_query_safe (s : string) :
  forallb isEncoded (list_ascii_of_string (SampleImages.encodeURIComponent s)) = true
  /\ forallb (fun c => negb (isQueryDelimiter c))
       (list_ascii_of_string (SampleImages.encodeURIComponent s)) = true.
Proof.
  assert (H : forallb isEncoded
                (list_ascii_of_string (SampleImages.encodeURIComponent s)) = true).
  { induction s as [|c s IH]; [reflexivity|].
    cbn [SampleImages.encodeURIComponent].
    now rewrite list_ascii_app, forallb_app, encodeChar_encoded, IH. }
  split; [exact H|].
  rewrite forallb_forall in H |- *. intros c Hc. specialize (H c Hc).
  revert H. clear. destruct c as [[] [] [] [] [] [] [] []]; vm_compute; congruence.
Qed.

(** X15: the encoding loses nothing: reading the escapes back gives the
    string again, so two different external URLs are never sent to the
    proxy as the same request. *)
Theorem requestUrl_injective :
  (forall s, Percent.decode (SampleImages.encodeURIComponent s) = Some s)
  /\ (forall u1 u2,
        SampleImages.isExternalUrl u1 = true ->
        SampleImages.isExternalUrl u2 = true ->
        SampleImages.requestUrl u1 = SampleImages.requestUrl u2 -> u1 = u2).
Proof.
  split; [exact decode_encoded|].
  intros u1 u2 H1 H2. unfold SampleImages.requestUrl. rewrite H1, H2.
  intros H. apply append_inj_l in H.
  pose proof (decode_encoded u1) as D1. rewrite H, decode_encoded in D1.
  now injection D1.
Qed.

Lemma requestUrl_injective_witness :
  Percent.decode (SampleImages.encodeURIComponent "https://a.b/c d?x=1&y=2")
  = Some "https://a.b/c d?x=1&y=2"
  /\ ("https://a.b/x" = "https://a.b/x").
Proof.
  destruct requestUrl_injective as [Hdec Hinj]. split.
  - apply Hdec.
  - apply Hinj; reflexivity.
Defined.



Section FileName.

Import SampleImages.

Lemma toLowerChar_plain (c : ascii) :
  isWhiteSpace (toLowerChar c) = false -> isPlain (toLowerChar c) = true.
Proof. destruct c as [[] [] [] [] [] [] [] []]; vm_compute; congruence. Qed.

Lemma replaceWhiteSpaceRuns_plain (inRun : bool) (s : string) :
  forallb isPlain (list_ascii_of_string (replaceWhiteSpaceRuns inRun (toLowerCase s)))
  = true.
Proof.
  revert inRun. induction s as [|c s IH]; intros inRun; [reflexivity|].
  cbn [toLowerCase replaceWhiteSpaceRuns].
  destruct (isWhiteSpace (toLowerChar c)) eqn:E.
  - destruct inRun; [apply IH|]. cbn [list_ascii_of_string forallb].
    rewrite IH. reflexivity.
  - cbn [list_ascii_of_string forallb]. now rewrite (toLowerChar_plain c E), IH.
Qed.

Lemma replaceWhiteSpaceRuns_length (inRun : bool) (s : string) :
  String.length (replaceWhiteSpaceRuns inRun s) <= String.length s.
Proof.
  revert inRun. induction s as [|c s IH]; intros inRun; [reflexivity|].
  cbn [replaceWhiteSpaceRuns]. destruct (isWhiteSpace c), inRun; simpl;
    first [specialize (IH true); lia | specialize (IH false); lia].
Qed.

Lemma toLowerCase_length (s : string) : String.length (toLowerCase s) = String.length s.
Proof. induction s as [|c s IH]; simpl; [reflexivity | now rewrite IH]. Qed.

End FileName.


(** ** choose *)

Section ChooseRuns.

Import SampleImages.

Variable Processed : Type.

Implicit Types (w : World Processed) (type : SampleType) (sample : Sample).

Ltac step := cbn [bindM emit call raise tryCatch tryFinally app negb].

Lemma choose_run w type sample : Run w type sample (choose w type sample).
Proof.
  unfold choose. cbv zeta. fold (fileFor sample).
  destruct (fetch w (requestUrl (sample_url sample))) as [res|e] eqn:Ef; step;
    [|eapply RunFetchRejected; eassumption].
  destruct (ok res) eqn:Eok; step; [|eapply RunNotOk; eassumption].
  destruct (blob w res) as [b|e] eqn:Eb; step;
    [|eapply RunBlobRejected; eassumption].
  change (mkFile (fileNameOf (sample_name sample))
            (if truthy (blob_type b) then blob_type b else "image/jpeg"))
    with (fileFor sample b).
  destruct (fixImageOrientation w (fileFor sample b)) as [p|e] eqn:Ex; step;
    [|eapply RunFixRejected; eassumption].
  destruct (onSelectSample w type p) as [[]|e] eqn:Es; step.
  - eapply RunLoaded; eassumption.
  - eapply RunSelectThrew; eassumption.
Qed.

End ChooseRuns.

Ltac by_run Processed w type sample :=
  let r := fresh "r" in
  let E := fresh "E" in
  let H := fresh "H" in
  pose proof (choose_run Processed w type sample) as H;
  remember (SampleImages.choose w type sample) as r eqn:E;
  clear E; destruct H.

(** X18: choose never throws, and whatever fails it sets the loading
    flag to the sample id first and clears it last, with no other write
    in between. *)
Theorem choose_clears_loading (Processed : Type)
    (w : SampleImages.World Processed) (type : SampleImages.SampleType)
    (sample : SampleImages.Sample) :
  snd (SampleImages.choose w type sample) = SampleImages.Returned tt
  /\ exists middle,
       fst (SampleImages.choose w type sample)
       = (SampleImages.SetIsLoading (Some (SampleImages.sample_id sample))
            :: middle ++ [SampleImages.SetIsLoading None])%list
       /\ Trace.loadingWrites middle = [].
Proof.
  by_run Processed w type sample; (split; [reflexivity|]);
    match goal with
    | |- exists _, fst (?t, _) = _ /\ _ => exists (removelast (tl t))
    end; split; reflexivity.
Qed.


(** X20: every call of choose shows exactly one toast: the success
    toast naming the sample when the image was handed over and
    onSelectSample returned, and otherwise the one error toast, after
    the error was logged to the console. *)
Theorem choose_one_toast (Processed : Type)
    (w : SampleImages.World Processed) (type : SampleImages.SampleType)
    (sample : SampleImages.Sample) :
  (Trace.toasts (fst (SampleImages.choose w type sample))
   = [(true, "Loaded " ++ SampleImages.sample_name sample)]
   /\ exists p,
        Trace.selections (fst (SampleImages.choose w type sample)) = [(type, p)]
        /\ SampleImages.onSelectSample w type p = SampleImages.Returned tt)
  \/ (Trace.toasts (fst (SampleImages.choose w type sample))
      = [(false, "Failed to load sample image")]
      /\ (exists e,
            In (SampleImages.ConsoleError e) (fst (SampleImages.choose w type sample)))
      /\ (Trace.selections (fst (SampleImages.choose w type sample)) = []
          \/ exists p e,
               Trace.selections (fst (SampleImages.choose w type sample)) = [(type, p)]
               /\ SampleImages.onSelectSample w type p = SampleImages.Raised e)).
Proof.
  by_run Processed w type sample.
  - right. split; [reflexivity|]. split; [exists e; cbn; auto | left; reflexivity].
  - right. split; [reflexivity|]. split; [eexists; cbn; auto | left; reflexivity].
  - right. split; [reflexivity|]. split; [exists e; cbn; auto | left; reflexivity].
  - right. split; [reflexivity|]. split; [exists e; cbn; auto 10 | left; reflexivity].
  - right. split; [reflexivity|]. split; [exists e; cbn; auto 10|].
    right. exists p, e. split; [reflexivity | assumption].
  - left. split; [reflexivity|]. exists p. split; [reflexivity | assumption].
Qed.

(** X21: when the response is not ok, choose stops there: it reads no
    blob, builds no file and hands nothing over; it logs its own error,
    which carries the sample name and the HTTP status, shows the error
    toast and clears the loading flag. *)
Theorem choose_http_failure (Processed : Type)
    (w : SampleImages.World Processed) (type : SampleImages.SampleType)
    (sample : SampleImages.Sample) (res : SampleImages.Response)
    (Hfetch : SampleImages.fetch w (SampleImages.requestUrl (SampleImages.sample_url sample))
              = SampleImages.Returned res)
    (Hok : SampleImages.ok res = false) :
  SampleImages.choose w type sample
  = ([SampleImages.SetIsLoading (Some (SampleImages.sample_id sample));
      SampleImages.Fetch (SampleImages.requestUrl (SampleImages.sample_url sample));
      SampleImages.ConsoleError
        (SampleImages.FetchError (SampleImages.sample_name sample)
           (SampleImages.http_status res));
      SampleImages.ToastError "Failed to load sample image";
      SampleImages.SetIsLoading None],
     SampleImages.Returned tt).
Proof.
  by_run Processed w type sample; congruence.
Qed.

Lemma choose_http_failure_witness :
  SampleImages.choose
    (SampleImages.mkWorld nat
       (fun _ => SampleImages.Returned (SampleImages.mkResponse false 404))
       (fun _ => SampleImages.Returned (SampleImages.mkBlob "image/png"))
       (fun _ => SampleImages.Returned 7)
       (fun _ _ => SampleImages.Returned tt))
    SampleImages.xray
    (SampleImages.mkSample "xray-sample-1" "Sample X-ray 1" "https://host/x.jpg")
  = ([SampleImages.SetIsLoading (Some "xray-sample-1");
      SampleImages.Fetch "/img-proxy?url=https%3A%2F%2Fhost%2Fx.jpg";
      SampleImages.ConsoleError (SampleImages.FetchError "Sample X-ray 1" 404);
      SampleImages.ToastError "Failed to load sample image";
      SampleImages.SetIsLoading None],
     SampleImages.Returned tt).
Proof.
  apply (choose_http_failure nat
           (SampleImages.mkWorld nat
              (fun _ => SampleImages.Returned (SampleImages.mkResponse false 404))
              (fun _ => SampleImages.Returned (SampleImages.mkBlob "image/png"))
              (fun _ => SampleImages.Returned 7)
              (fun _ _ => SampleImages.Returned tt))
           SampleImages.xray
           (SampleImages.mkSample "xray-sample-1" "Sample X-ray 1" "https://host/x.jpg")
           (SampleImages.mkResponse false 404)); reflexivity.
Defined.

